(** * EV-Analysis: the pre-processing pipeline of [preprocess.py]

    A shallow embedding of [preprocess_vehicle_data] and of the pandas
    operations it calls, followed by the properties of the pipeline.

    The function walks a directory, reads every [.xlsx] file into a
    DataFrame, concatenates the frames, renames columns, translates the two
    state columns, coerces the time and numeric columns, drops rows with
    missing required values, sorts by [record_time] and writes the frame.

    What lives outside the repository is taken as a parameter of the
    development: the spreadsheet reader ([pd.read_excel]), the scalar parsers
    behind [pd.to_datetime] and [pd.to_numeric], the sorting algorithm
    selected by [sort_values]'s [kind] argument, and the Parquet writer.
    numpy's algorithm for the default [kind='quicksort'] is modelled in
    [Numpy]. *)

From Stdlib Require Import String Ascii ZArith Bool Arith Lia List.
From Stdlib Require Import Sorting.Permutation Sorting.Sorted.
From Stdlib Require Import Floats.SpecFloat.
Import ListNotations.

Local Open Scope string_scope.
Local Open Scope list_scope.

(** ** Values, rows and frames *)

(** A cell of a DataFrame, as the spreadsheet reader delivers it or as a
    later stage rewrites it. [NA] stands for [None], [NaN] and [NaT]; a
    float cell holding IEEE NaN is missing as well. Python [str] values are
    kept as their UTF-8 bytes. *)
Inductive cell : Type :=
| NA
| Str (s : string)
| Int (n : Z)
| Num (x : spec_float)
| Bool (b : bool)
| Timestamp (t : Z).

(** IEEE 754 NaN among the float64 values. *)
Definition is_nan (x : spec_float) : bool :=
  match x with
  | S754_nan => true
  | _ => false
  end.

(** [pd.isna] on a scalar. *)
Definition isna (v : cell) : bool :=
  match v with
  | NA => true
  | Num x => is_nan x
  | _ => false
  end.

Definition notna (v : cell) : bool := negb (isna v).

(** A row: its index label and its values, one per column, by position. *)
Record row : Type := mkRow { label : nat; cells : list cell }.

(** A DataFrame: the column labels, in order, and the rows. The labels are
    the header texts of the spreadsheets. *)
Record DataFrame : Type := mkFrame { columns : list string; rows : list row }.

(** [len(df)] *)
Definition len (df : DataFrame) : nat := length (rows df).

(** The value of a row at a column position; a row shorter than the header
    reads as missing there. *)
Definition at_pos (i : nat) (r : row) : cell := nth i (cells r) NA.

(** Python exceptions the pipeline can meet after loading. *)
Inductive exn : Type :=
| KeyError (key : string)
| TypeError (what : string)
| ValueError (what : string)
| IOError (what : string).

Inductive result (A : Type) : Type :=
| Ok (a : A)
| Raise (e : exn).
Arguments Ok {A} a.
Arguments Raise {A} e.

Definition rbind {A B} (m : result A) (k : A -> result B) : result B :=
  match m with
  | Ok a => k a
  | Raise e => Raise e
  end.

Notation "'try' x := m 'in' k" := (rbind m (fun x => k))
  (at level 10, x name, m at level 100, k at level 200).

(** ** Strings and labels *)

(** [str.endswith] *)
Fixpoint rev_prefix (p s : list ascii) : bool :=
  match p, s with
  | [], _ => true
  | _ :: _, [] => false
  | a :: p', b :: s' => Ascii.eqb a b && rev_prefix p' s'
  end.

Definition endswith (s suffix : string) : bool :=
  rev_prefix (rev (list_ascii_of_string suffix)) (rev (list_ascii_of_string s)).

(** [os.path.join] of a directory and a plain file name (POSIX; a name from
    a directory listing never starts with a slash). *)
Definition path_join (root name : string) : string :=
  if String.eqb root "" then name
  else if endswith root "/" then (root ++ name)%string
  else (root ++ "/" ++ name)%string.

(** [dict.get] on a literal dictionary with string keys. *)
Fixpoint dict_get (d : list (string * string)) (k : string) : option string :=
  match d with
  | [] => None
  | (k', v) :: d' => if String.eqb k' k then Some v else dict_get d' k
  end.

Definition keys (d : list (string * string)) : list string := map fst d.

(** Positions at which a label occurs in a header. *)
Fixpoint positions_from (n : nat) (c : string) (cols : list string) : list nat :=
  match cols with
  | [] => []
  | c' :: cols' =>
      if String.eqb c' c then n :: positions_from (S n) c cols'
      else positions_from (S n) c cols'
  end.

Definition positions (c : string) (cols : list string) : list nat :=
  positions_from 0 c cols.

(** The value of a record under a label: the first column so named, and
    missing when there is none. *)
Definition value (cols : list string) (c : string) (cs : list cell) : cell :=
  match positions c cols with
  | i :: _ => nth i cs NA
  | [] => NA
  end.

(** The records of a list in the order an indexer gives. *)
Definition pick {A} (d : A) (l : list A) (idx : list nat) : list A :=
  map (fun i => nth i l d) idx.

(** ** The pandas operations the pipeline calls *)

Module pd.

(** Header of [pd.concat(..., join='outer', sort=False)]: the labels of all
    frames in order of first appearance. The frames of a run come from
    [pd.read_excel], which gives every column of a sheet a label of its own
    (a repeated header text [x] is read as [x.1], [x.2], ...), so a label
    names at most one column of a frame. *)
Fixpoint unique (seen : list string) (l : list string) : list string :=
  match l with
  | [] => []
  | c :: l' =>
      if existsb (String.eqb c) seen then unique seen l'
      else c :: unique (c :: seen) l'
  end.

Definition union_columns (dfs : list DataFrame) : list string :=
  unique [] (flat_map columns dfs).

(** A row of one frame laid out on the union header; a column the frame
    does not have reads as missing. *)
Definition reindex_row (cols union : list string) (r : row) : list cell :=
  map (fun c => value cols c (cells r)) union.

Definition reindexed (union : list string) (df : DataFrame) : list (list cell) :=
  map (reindex_row (columns df) union) (rows df).

Fixpoint relabel (n : nat) (l : list (list cell)) : list row :=
  match l with
  | [] => []
  | cs :: l' => mkRow n cs :: relabel (S n) l'
  end.

(** [pd.concat(df_list, ignore_index=True)] *)
Definition concat (dfs : list DataFrame) : DataFrame :=
  let union := union_columns dfs in
  mkFrame union (relabel 0 (flat_map (reindexed union) dfs)).

(** [df.rename(columns=mapping, inplace=True)]: a label that is a key is
    replaced, every other label stays. *)
Definition rename_label (mapping : list (string * string)) (c : string) : string :=
  match dict_get mapping c with
  | Some c' => c'
  | None => c
  end.

Definition rename (mapping : list (string * string)) (df : DataFrame) : DataFrame :=
  mkFrame (map (rename_label mapping) (columns df)) (rows df).

(** [df[c]] for reading: the label must occur, and only a label occurring
    once selects a Series; the result is the position of that column. A
    label occurring several times selects a DataFrame, on which neither
    [.map(dict)] nor [pd.to_datetime]/[pd.to_numeric] is defined. After
    the renaming of step 4 this happens to a numeric column that the files
    bring under both its source and its canonical name, and
    [pd.to_numeric] then raises [TypeError]. *)
Definition getitem (df : DataFrame) (c : string) : result nat :=
  match positions c (columns df) with
  | [] => Raise (KeyError c)
  | [i] => Ok i
  | _ :: _ :: _ => Raise (TypeError c)
  end.

Definition series (df : DataFrame) (i : nat) : list cell :=
  map (at_pos i) (rows df).

(** Writing a value at a position of a row. *)
Fixpoint set_nth (i : nat) (v : cell) (l : list cell) : list cell :=
  match i, l with
  | _, [] => []
  | O, _ :: l' => v :: l'
  | S i', x :: l' => x :: set_nth i' v l'
  end.

(** [df[c] = s] for an existing column at position [i] and a Series [s]
    carrying the frame's own index. *)
Fixpoint assign (i : nat) (s : list cell) (rs : list row) : list row :=
  match s, rs with
  | v :: s', r :: rs' => mkRow (label r) (set_nth i v (cells r)) :: assign i s' rs'
  | _, _ => rs
  end.

Definition setitem (df : DataFrame) (i : nat) (s : list cell) : DataFrame :=
  mkFrame (columns df) (assign i s (rows df)).

(** [Series.map(d)] for a dictionary [d] with string keys: a value that is a
    key is replaced by the dictionary's value, any other value by NaN. *)
Definition map_value (d : list (string * string)) (v : cell) : cell :=
  match v with
  | Str s => match dict_get d s with
             | Some l => Str l
             | None => NA
             end
  | _ => NA
  end.

Definition map_dict (d : list (string * string)) (s : list cell) : list cell :=
  map (map_value d) s.

(** The [errors] argument of [pd.to_datetime] and [pd.to_numeric]. *)
Inductive errors_mode : Type := errors_raise | errors_coerce.

(** Conversion of a Series with a scalar parser [parse] and a constructor
    [box] for parsed values: with [errors='raise'] the first value the
    parser rejects raises, with [errors='coerce'] it becomes missing. The
    conversion is taken value by value. What pandas decides on a column as
    a whole lies outside it: [pd.to_datetime] called without [utc=True], as
    the code calls it, refuses a column that mixes time zones. *)
Fixpoint convert {V} (parse : cell -> option V) (box : V -> cell)
    (errors : errors_mode) (s : list cell) : result (list cell) :=
  match s with
  | [] => Ok []
  | v :: s' =>
      match parse v, errors with
      | Some x, _ => try s'' := convert parse box errors s' in Ok (box x :: s'')
      | None, errors_coerce =>
          try s'' := convert parse box errors s' in Ok (NA :: s'')
      | None, errors_raise => Raise (ValueError "Unable to parse")
      end
  end.

(** [df.dropna(subset=labels, inplace=True)]: every label of the subset
    must be a column; a row stays when it has a value in each of them. *)
Definition complete (subset : list nat) (r : row) : bool :=
  forallb (fun i => notna (at_pos i r)) subset.

Definition subset_positions (labels cols : list string) : list nat :=
  flat_map (fun c => positions c cols) labels.

Definition dropna (labels : list string) (df : DataFrame) : result DataFrame :=
  match filter (fun c => negb (existsb (String.eqb c) (columns df))) labels with
  | c :: _ => Raise (KeyError c)
  | [] =>
      Ok (mkFrame (columns df)
            (filter (complete (subset_positions labels (columns df))) (rows df)))
  end.

(** A sorting algorithm as [ndarray.argsort(kind=...)] offers it: on a list
    of keys it returns the positions of the keys in ascending key order.
    Nothing more is promised for [kind='quicksort'], the default of
    [sort_values]; only ['mergesort'] and ['stable'] keep equal keys in
    their original order. *)
Definition sort_kind : Type := list Z -> list nat.

Definition sorts (argsort : sort_kind) : Prop :=
  forall ks,
    Permutation (argsort ks) (seq 0 (length ks))
    /\ StronglySorted Z.le (map (fun i => nth i ks 0%Z) (argsort ks)).

(** Positions of the present and of the missing keys, in order. *)
Fixpoint split_na (n : nat) (ks : list (option Z)) : list (nat * Z) * list nat :=
  match ks with
  | [] => ([], [])
  | Some k :: ks' => let (p, m) := split_na (S n) ks' in ((n, k) :: p, m)
  | None :: ks' => let (p, m) := split_na (S n) ks' in (p, n :: m)
  end.

(** [nargsort(items, kind, ascending=True, na_position='last')]: the present
    keys are sorted by the algorithm, the missing ones follow. *)
Definition nargsort (kind : sort_kind) (items : list (option Z)) : list nat :=
  let (present, missing) := split_na 0 items in
  map (fun j => nth j (map fst present) 0) (kind (map snd present))
  ++ missing.

(** [df.take(indexer)] *)
Definition take (indexer : list nat) (rs : list row) : list row :=
  map (fun i => nth i rs (mkRow 0 [])) indexer.

(** The sort key of a cell of a datetime column; [NaT] has none. *)
Definition datetime_key (v : cell) : option Z :=
  match v with
  | Timestamp t => Some t
  | _ => None
  end.

(** [df.sort_values(by=c, ascending=True, inplace=True)] on a datetime
    column, with the algorithm that [kind] selects. *)
Definition sort_values (kind : sort_kind) (by_ : string) (df : DataFrame)
    : result DataFrame :=
  try i := getitem df by_ in
  Ok (mkFrame (columns df)
        (take (nargsort kind (map datetime_key (series df i))) (rows df))).

(** [df.reset_index(drop=True, inplace=True)] *)
Definition reset_index (df : DataFrame) : DataFrame :=
  mkFrame (columns df) (relabel 0 (map cells (rows df))).

End pd.

(** ** The environment of a run *)

(** A directory as [os.walk] sees it: its name, the names of its files, and
    its sub-directories. The name of the directory a walk starts from plays
    no role: the walk uses the path it was given. *)
#[warnings="-register-all"]
Inductive dir : Type :=
| Dir (name : string) (files : list string) (subdirs : list dir).

Definition dir_name (d : dir) : string :=
  match d with
  | Dir name _ _ => name
  end.

(** [os.walk(top)], top-down: the triple of a directory comes before those
    of its sub-directories. A path that is no directory yields nothing. *)
Fixpoint walk (top : string) (d : dir) : list (string * list string * list string) :=
  match d with
  | Dir _ files subdirs =>
      (top, map dir_name subdirs, files)
      :: (fix walk_all (l : list dir) :=
            match l with
            | [] => []
            | d' :: l' => walk (path_join top (dir_name d')) d' ++ walk_all l'
            end) subdirs
  end.

Definition os_walk (top : string) (fs : option dir)
    : list (string * list string * list string) :=
  match fs with
  | Some d => walk top d
  | None => []
  end.

(** What [to_parquet(..., index=False)] stores: the header and the rows,
    without the index. *)
Record parquet : Type := mkParquet {
  schema : list string;
  records : list (list cell)
}.

(** The lines the function prints. *)
Inductive message : Type :=
| Searching (base_path : string)
| ErrorNoFiles
| Found (n : nat)
| WarningRead (file_path : string) (error : string)
| ErrorNoFrames
| Concatenating
| InitialRecords (n : nat)
| Translating
| Converting
| Dropped (n : nat)
| Sorting
| Saving (output_filename : string)
| Complete
| FinalRecords (n : nat)
| Saved
| FirstRows (head : list row).

(** The observable state of a run: what was printed, oldest line first, and
    the files written, newest first. *)
Record world : Type := mkWorld {
  stdout : list message;
  written : list (string * parquet)
}.

(** Computations that print, write and may raise. *)
Definition M (A : Type) : Type := world -> world * result A.

Definition ret {A} (a : A) : M A := fun w => (w, Ok a).

Definition bind {A B} (m : M A) (k : A -> M B) : M B :=
  fun w =>
    match m w with
    | (w', Ok a) => k a w'
    | (w', Raise e) => (w', Raise e)
    end.

Definition lift {A} (r : result A) : M A := fun w => (w, r).

Definition print (m : message) : M unit :=
  fun w => (mkWorld (stdout w ++ [m]) (written w), Ok tt).

Notation "x <- m ;; k" := (bind m (fun x => k))
  (at level 61, m at next level, right associativity).
Notation "m ;; k" := (bind m (fun _ => k))
  (at level 61, right associativity).

(** The line of step 7, printed when rows were dropped. *)
Definition dropped_line (k : nat) : list message :=
  if (0 <? k)%nat then [Dropped k] else [].

(** ** The constants of [preprocess_vehicle_data] *)

Definition cleaned_columns : list (string * string) :=
  [ ("record_time", "record_time");
    ("vehicle_state", "vehicle_state");
    ("charge_state", "charge_state");
    ("pack_voltage(V)", "pack_voltage");
    ("pack_current(A)", "pack_current");
    ("SOC(%)", "soc");
    ("max_cell_voltage (V)", "max_cell_voltage");
    ("min_cell_voltage (V)", "min_cell_voltage");
    ("max_probe_temperature (℃)", "max_temp");
    ("min_probe_temperature (℃)", "min_temp") ].

Definition vehicle_state_map : list (string * string) :=
  [ ("车辆启动", "Vehicle Start");
    ("熄火", "Engine Off") ].

Definition charge_state_map : list (string * string) :=
  [ ("未充电", "Not Charging");
    ("停车充电", "Parked Charging");
    ("充电完成", "Charging Complete") ].

Definition numeric_cols : list string :=
  [ "pack_voltage"; "pack_current"; "soc"; "max_cell_voltage";
    "min_cell_voltage"; "max_temp"; "min_temp" ].

(** ** The pipeline *)

Module preprocess.

Section Pipeline.

(** [pd.read_excel(path, engine='openpyxl')]: the frame of a file, or the
    text of the exception it raises. *)
Variable read_excel : string -> string + DataFrame.

(** The scalar parsers behind [pd.to_datetime] (nanoseconds since the
    epoch) and [pd.to_numeric] (float64); [None] when a value does not
    parse. A run converts one [record_time] column, so [parse_datetime] is
    the parser of that call, with whatever format pandas settles on for
    the column. *)
Variable parse_datetime : cell -> option Z.
Variable parse_numeric : cell -> option spec_float.

(** The algorithm behind [sort_values]'s default [kind='quicksort']. *)
Variable quicksort : pd.sort_kind.

(** The Parquet writer: the text of the exception when writing fails. *)
Variable write_error : string -> parquet -> option string.

Definition to_datetime := pd.convert parse_datetime Timestamp.
Definition to_numeric := pd.convert parse_numeric Num.

(** [df.to_parquet(path, index=False)] *)
Definition to_parquet (df : DataFrame) (path : string) : M unit :=
  fun w =>
    let table := mkParquet (columns df) (map cells (rows df)) in
    match write_error path table with
    | Some e => (w, Raise (IOError e))
    | None => (mkWorld (stdout w) ((path, table) :: written w), Ok tt)
    end.

(** Step 1: the [.xlsx] files below [base_path]. *)
Definition find_files (base_path : string) (fs : option dir) : list string :=
  flat_map (fun '(root, _, files) =>
              map (path_join root)
                  (filter (fun file => endswith file ".xlsx") files))
           (os_walk base_path fs).

(** Step 2: read each file; a file that fails to load is reported and
    skipped. *)
Fixpoint read_files (all_files : list string) : M (list DataFrame) :=
  match all_files with
  | [] => ret []
  | file_path :: rest =>
      match read_excel file_path with
      | inr df => df_list <- read_files rest ;; ret (df :: df_list)
      | inl e => print (WarningRead file_path e) ;; read_files rest
      end
  end.

(** Step 5: [df[c] = df[c].map(d)] *)
Definition translate (c : string) (d : list (string * string)) (df : DataFrame)
    : result DataFrame :=
  try i := pd.getitem df c in
  Ok (pd.setitem df i (pd.map_dict d (pd.series df i))).

(** Step 6: [df[c] = conv(df[c], errors='coerce')] *)
Definition coerce (conv : pd.errors_mode -> list cell -> result (list cell))
    (c : string) (df : DataFrame) : result DataFrame :=
  try i := pd.getitem df c in
  try s := conv pd.errors_coerce (pd.series df i) in
  Ok (pd.setitem df i s).

Fixpoint coerce_numeric (cols : list string) (df : DataFrame) : result DataFrame :=
  match cols with
  | [] => Ok df
  | col :: cols' => try df' := coerce to_numeric col df in coerce_numeric cols' df'
  end.

(** Steps 3 to 9, on the frames that were read. *)
Definition process (df_list : list DataFrame) (output_filename : string) : M unit :=
  print Concatenating ;;
  let full_df := pd.concat df_list in
  print (InitialRecords (len full_df)) ;;
  let full_df := pd.rename cleaned_columns full_df in
  print Translating ;;
  full_df <- lift (translate "vehicle_state" vehicle_state_map full_df) ;;
  full_df <- lift (translate "charge_state" charge_state_map full_df) ;;
  print Converting ;;
  full_df <- lift (coerce to_datetime "record_time" full_df) ;;
  full_df <- lift (coerce_numeric numeric_cols full_df) ;;
  let initial_rows := len full_df in
  full_df <- lift (pd.dropna ("record_time" :: numeric_cols) full_df) ;;
  let rows_dropped := initial_rows - len full_df in
  (if (0 <? rows_dropped)%nat then print (Dropped rows_dropped) else ret tt) ;;
  print Sorting ;;
  full_df <- lift (pd.sort_values quicksort "record_time" full_df) ;;
  let full_df := pd.reset_index full_df in
  print (Saving output_filename) ;;
  to_parquet full_df output_filename ;;
  print Complete ;;
  print (FinalRecords (len full_df)) ;;
  print Saved ;;
  print (FirstRows (firstn 5 (rows full_df))).

Definition preprocess_vehicle_data (fs : option dir)
    (base_path output_filename : string) : M unit :=
  print (Searching base_path) ;;
  let all_files := find_files base_path fs in
  match all_files with
  | [] => print ErrorNoFiles
  | _ :: _ =>
      print (Found (length all_files)) ;;
      df_list <- read_files all_files ;;
      match df_list with
      | [] => print ErrorNoFrames
      | _ :: _ => process df_list output_filename
      end
  end.

(** The script's [__main__] block. *)
Definition VEHICLE_BASE_PATH : string := "./Data/Vehicle 2".

Definition OUTPUT_FILENAME : string := "processed_vehicle_2.parquet".

Definition main (fs : option dir) : M unit :=
  preprocess_vehicle_data fs VEHICLE_BASE_PATH OUTPUT_FILENAME.

(** *** Notions used to state the properties of a run *)

(** The frames of the files that load, in the order of the files. *)
Fixpoint loaded (all_files : list string) : list DataFrame :=
  match all_files with
  | [] => []
  | file_path :: rest =>
      match read_excel file_path with
      | inr df => df :: loaded rest
      | inl _ => loaded rest
      end
  end.

(** The warnings for the files that do not load. *)
Fixpoint warnings (all_files : list string) : list message :=
  match all_files with
  | [] => []
  | file_path :: rest =>
      match read_excel file_path with
      | inr _ => warnings rest
      | inl e => WarningRead file_path e :: warnings rest
      end
  end.

(** The unified table under its canonical column names. *)
Definition unified (df_list : list DataFrame) : DataFrame :=
  pd.rename cleaned_columns (pd.concat df_list).

(** What [errors='coerce'] makes of one value. *)
Definition coerce_cell {V} (parse : cell -> option V) (box : V -> cell)
    (v : cell) : cell :=
  match parse v with
  | Some x => box x
  | None => NA
  end.

(** The column rewrites of steps 5 and 6, in the order of the code. *)
Definition stages : list (string * (cell -> cell)) :=
  [ ("vehicle_state", pd.map_value vehicle_state_map);
    ("charge_state", pd.map_value charge_state_map);
    ("record_time", coerce_cell parse_datetime Timestamp) ]
  ++ map (fun c => (c, coerce_cell parse_numeric Num)) numeric_cols.

(** What a list of column rewrites does to a value under a label. *)
Definition stage_fun (st : list (string * (cell -> cell))) (c : string)
    (v : cell) : cell :=
  fold_left (fun v' '(c', f) => if String.eqb c' c then f v' else v') st v.

Definition normalize_value : string -> cell -> cell := stage_fun stages.

(** A record rewritten label by label. *)
Fixpoint by_label (g : string -> cell -> cell) (cols : list string)
    (cs : list cell) : list cell :=
  match cols, cs with
  | c :: cols', v :: cs' => g c v :: by_label g cols' cs'
  | _, _ => []
  end.

Definition normalize_record (cols : list string) (cs : list cell) : list cell :=
  by_label normalize_value cols cs.

(** A raw value that parses as a timestamp, or as a number other than NaN. *)
Definition parses_datetime (v : cell) : bool :=
  match parse_datetime v with
  | Some _ => true
  | None => false
  end.

Definition parses_numeric (v : cell) : bool :=
  match parse_numeric v with
  | Some x => negb (is_nan x)
  | None => false
  end.

(** A raw record whose eight required fields all parse. *)
Definition required_ok (cols : list string) (cs : list cell) : bool :=
  parses_datetime (value cols "record_time" cs)
  && forallb (fun c => parses_numeric (value cols c cs)) numeric_cols.

(** The rows of a table that required-field filtering removes. *)
Definition rows_dropped (df : DataFrame) : nat :=
  length (filter (fun r => negb (required_ok (columns df) (cells r))) (rows df)).

(** The time of a normalized record. *)
Definition time_of (cols : list string) (cs : list cell) : Z :=
  match value cols "record_time" cs with
  | Timestamp t => t
  | _ => 0%Z
  end.

(** The normalized records of the rows that pass the filter, in the order
    of the table. *)
Definition surviving (df : DataFrame) : list (list cell) :=
  map (normalize_record (columns df))
      (filter (required_ok (columns df)) (map cells (rows df))).

(** The table a run writes for a unified table [df]. *)
Definition expected_table (df : DataFrame) : parquet :=
  mkParquet (columns df)
    (pick [] (surviving df)
       (quicksort (map (time_of (columns df)) (surviving df)))).

(** What steps 1 and 2 print when files are found. *)
Definition found_log (base_path : string) (all_files : list string)
    : list message :=
  [Searching base_path; Found (length all_files)] ++ warnings all_files.

(** What steps 3 to 8 print. *)
Definition success_log (df : DataFrame) (out : string) : list message :=
  [Concatenating; InitialRecords (len df); Translating; Converting]
  ++ dropped_line (rows_dropped df) ++ [Sorting; Saving out].

(** What a run prints after writing. *)
Definition final_log (t : parquet) : list message :=
  [Complete; FinalRecords (length (records t)); Saved;
   FirstRows (firstn 5 (pd.relabel 0 (records t)))].

End Pipeline.

End preprocess.

Import preprocess.

(** A label that names exactly one column. *)
Definition has_once (cols : list string) (c : string) : bool :=
  match positions c cols with
  | [_] => true
  | _ => false
  end.

(** The canonical schema. *)
Definition canonical_columns : list string :=
  [ "record_time"; "vehicle_state"; "charge_state"; "pack_voltage";
    "pack_current"; "soc"; "max_cell_voltage"; "min_cell_voltage";
    "max_temp"; "min_temp" ].

(** The time column of a written table. *)
Definition record_times (t : parquet) : list cell :=
  map (value (schema t) "record_time") (records t).

(** A row with its values rewritten. *)
Definition on_cells (g : list cell -> list cell) (r : row) : row :=
  mkRow (label r) (g (cells r)).

(** Every row has one value per column. *)
Definition well_formed (df : DataFrame) : Prop :=
  Forall (fun r => length (cells r) = length (columns df)) (rows df).

(** Rewriting the values under one label only. *)
Definition only (c : string) (f : cell -> cell) (c' : string) (v : cell) : cell :=
  if String.eqb c c' then f v else v.

(** Steps 5 and 6 all have the shape [df[c] = f(df[c])] for a function [f]
    that works value by value. *)
Definition stage (c : string) (f : cell -> cell) (df : DataFrame)
    : result DataFrame :=
  try i := pd.getitem df c in
  Ok (pd.setitem df i (map f (pd.series df i))).

Fixpoint run_stages (st : list (string * (cell -> cell))) (df : DataFrame)
    : result DataFrame :=
  match st with
  | [] => Ok df
  | (c, f) :: st' => try df' := stage c f df in run_stages st' df'
  end.

Definition map_rows (g : list cell -> list cell) (df : DataFrame) : DataFrame :=
  mkFrame (columns df) (map (on_cells g) (rows df)).

(** The exceptions of a column that is absent or not unique. *)
Definition column_error (c : string) (e : exn) : Prop :=
  e = KeyError c \/ e = TypeError c.

(** Every column the code reads is there exactly once. *)
Definition usable (cols : list string) : bool :=
  forallb (has_once cols)
    ("vehicle_state" :: "charge_state" :: "record_time" :: numeric_cols).

(** The directories below a path: [below top d root files] when the walk
    from [top] through [d] reaches a directory whose path is [root] and
    whose files are [files]. *)
Inductive below : string -> dir -> string -> list string -> Prop :=
| below_here top name files subdirs :
    below top (Dir name files subdirs) top files
| below_sub top name files subdirs d root files' :
    In d subdirs ->
    below (path_join top (dir_name d)) d root files' ->
    below top (Dir name files subdirs) root files'.

(** The exception of [df[c]] when [c] names no column or several. *)
Definition lookup_error (cols : list string) (c : string) : exn :=
  match positions c cols with
  | [] => KeyError c
  | _ :: _ => TypeError c
  end.

(** The first of some labels that does not name exactly one column. *)
Fixpoint first_bad (cols : list string) (labels : list string) : option string :=
  match labels with
  | [] => None
  | c :: labels' => if has_once cols c then first_bad cols labels' else Some c
  end.

(** The labels the code reads with [full_df[...]], in the order it reads
    them. *)
Definition lookups : list string :=
  "vehicle_state" :: "charge_state" :: "record_time" :: numeric_cols.

(** What steps 3 to 6 print before the lookup of column [c] fails. *)
Definition failure_log (df : DataFrame) (c : string) : list message :=
  [Concatenating; InitialRecords (len df); Translating]
  ++ (if String.eqb c "vehicle_state" || String.eqb c "charge_state"
      then [] else [Converting]).

(** Whether an indexer lists equal keys in their original order; in a
    sorted indexer equal keys are neighbours. *)
Fixpoint ties_ascending (ks : list Z) (idx : list nat) : bool :=
  match idx with
  | i :: (j :: _) as rest =>
      (if (nth i ks 0 =? nth j ks 0)%Z then (i <? j)%nat else true)
      && ties_ascending ks rest
  | _ => true
  end.

(** ** Two sorting algorithms

    Insertion sort over the keys paired with their positions. Inserting in
    front of an equal key keeps equal keys in their original order (a stable
    algorithm, as [kind='stable']); inserting behind the equal keys reverses
    them. Both meet the contract of [argsort]. *)

Module Kinds.

Fixpoint insert_by (before : Z -> Z -> bool) (x : nat * Z) (l : list (nat * Z))
    : list (nat * Z) :=
  match l with
  | [] => [x]
  | y :: l' =>
      if before (snd x) (snd y) then x :: y :: l'
      else y :: insert_by before x l'
  end.

Definition insertion_sort (before : Z -> Z -> bool) (l : list (nat * Z))
    : list (nat * Z) :=
  fold_right (insert_by before) [] l.

Definition insertion_argsort (before : Z -> Z -> bool) (ks : list Z) : list nat :=
  map fst (insertion_sort before (combine (seq 0 (length ks)) ks)).

(** Equal keys stay in their original order. *)
Definition stable : pd.sort_kind := insertion_argsort Z.leb.

(** Equal keys come out in reverse order. *)
Definition reversing : pd.sort_kind := insertion_argsort Z.ltb.

(** Whether a list of keys never decreases. *)
Fixpoint ascending (l : list Z) : bool :=
  match l with
  | x :: (y :: _) as l' => (x <=? y)%Z && ascending l'
  | _ => true
  end.

(** Whether an indexer meets the contract of [argsort] on the keys [ks]: it
    lists every position once, in ascending key order. *)
Definition sorted_indexer (ks : list Z) (idx : list nat) : bool :=
  (length idx =? length ks)%nat
  && forallb (fun i => existsb (Nat.eqb i) idx) (seq 0 (length ks))
  && ascending (map (fun i => nth i ks 0%Z) idx).

(** An algorithm with its result checked: where the algorithm sorts, this
    is the algorithm; where it does not, the stable sort stands in. *)
Definition checked (kind : pd.sort_kind) : pd.sort_kind :=
  fun ks => if sorted_indexer ks (kind ks) then kind ks else stable ks.

End Kinds.

(** ** Sample data

    A parser fragment (timestamps and numbers parse as themselves, text
    never does), a directory with two days of data and one broken file, and
    the reader for it. *)

Module Sample.

Definition float_of_Z (n : Z) : spec_float :=
  match n with
  | Z0 => S754_zero false
  | Zpos p => S754_finite false p 0
  | Zneg p => S754_finite true p 0
  end.

Definition parse_datetime (v : cell) : option Z :=
  match v with
  | Timestamp t => Some t
  | _ => None
  end.

Definition parse_numeric (v : cell) : option spec_float :=
  match v with
  | Num x => Some x
  | Int n => Some (float_of_Z n)
  | _ => None
  end.

Definition header : list string :=
  [ "record_time"; "vehicle_state"; "charge_state"; "pack_voltage(V)";
    "pack_current(A)"; "SOC(%)"; "max_cell_voltage (V)";
    "min_cell_voltage (V)"; "max_probe_temperature (℃)";
    "min_probe_temperature (℃)" ].

(** A row of a daily file: time, vehicle state, pack voltage and state of
    charge vary, the other fields are fixed. *)
Definition sample (n : nat) (t : Z) (state : string) (voltage : cell) (soc : Z)
    : row :=
  mkRow n [ Timestamp t; Str state; Str "未充电"; voltage; Int 12; Int soc;
            Int 4; Int 3; Int 31; Int 29 ].

Definition day1 : DataFrame :=
  mkFrame header
    [ sample 0 300 "车辆启动" (Int 350) 80;
      sample 1 100 "熄火" (Int 351) 81;
      sample 2 200 "行驶" (Int 352) 82 ].

(** Two of five rows carry text in the pack voltage. *)
Definition day2 : DataFrame :=
  mkFrame header
    [ sample 0 500 "车辆启动" (Int 350) 70;
      sample 1 400 "熄火" (Str "--") 71;
      sample 2 400 "熄火" (Int 349) 72;
      sample 3 600 "熄火" (Str "error") 73;
      sample 4 400 "车辆启动" (Int 348) 74 ].

(** A file with one more column than the rename table knows. *)
Definition day3 : DataFrame :=
  mkFrame (header ++ ["mileage(km)"])
    [ mkRow 0 [ Timestamp 700; Str "熄火"; Str "充电完成"; Int 350; Int 0;
                Int 100; Int 4; Int 4; Int 25; Int 24; Int 12345 ] ].

(** A file without the [vehicle_state] column. *)
Definition day4 : DataFrame :=
  mkFrame ("record_time" :: tl (tl header))
    [ mkRow 0 [ Timestamp 800; Str "未充电"; Int 350; Int 0; Int 100; Int 4;
                Int 4; Int 25; Int 24 ] ].

Definition read_excel (path : string) : string + DataFrame :=
  if String.eqb path "./Data/day1.xlsx" then inr day1
  else if String.eqb path "./Data/2020/day2.xlsx" then inr day2
  else if String.eqb path "./Data/2020/day3.xlsx" then inr day3
  else if String.eqb path "./Data/2020/day4.xlsx" then inr day4
  else inl "File is not a zip file".

Definition writable (path : string) (t : parquet) : option string := None.

(** One good file and one broken one. *)
Definition two_files : option dir :=
  Some (Dir "Data" ["day1.xlsx"; "notes.txt"] [Dir "old" ["broken.xlsx"] []]).

(** Only broken files. *)
Definition broken_files : option dir :=
  Some (Dir "Data" ["a.xlsx"] [Dir "old" ["broken.xlsx"] []]).

(** No spreadsheet at all. *)
Definition no_files : option dir :=
  Some (Dir "Data" ["notes.txt"; "day1.XLSX"] [Dir "old" [] []]).

Definition ties : option dir :=
  Some (Dir "Data" [] [Dir "2020" ["day2.xlsx"] []]).

Definition extra_column : option dir :=
  Some (Dir "Data" ["day1.xlsx"] [Dir "2020" ["day3.xlsx"] []]).

Definition missing_column : option dir :=
  Some (Dir "Data" [] [Dir "2020" ["day4.xlsx"] []]).

Definition start : world := mkWorld [] [].

Definition run (kind : pd.sort_kind) (fs : option dir) : world * result unit :=
  preprocess_vehicle_data read_excel parse_datetime parse_numeric kind
    writable fs "./Data" "processed.parquet" start.

(** The table a run wrote last. *)
Definition table (kind : pd.sort_kind) (fs : option dir) : parquet :=
  match written (fst (run kind fs)) with
  | (_, t) :: _ => t
  | [] => mkParquet [] []
  end.

(** The unified table of a run. *)
Definition unified_table (fs : option dir) : DataFrame :=
  unified (loaded read_excel (find_files "./Data" fs)).

(** The unified row of [day1] with the unmapped vehicle state. *)
Definition driving : list cell :=
  [ Timestamp 200; Str "行驶"; Str "未充电"; Int 352; Int 12; Int 82;
    Int 4; Int 3; Int 31; Int 29 ].

End Sample.

(** ** More sample data

    Files for the other ways a run can go: a sheet that brings the state of
    charge under both of its names, a sheet none of whose rows can be kept,
    the same two files listed in either order, a writer that fails, and the
    folder the script itself looks into. *)

Module Cases.

(** The state of charge under its source header and its canonical name. *)
Definition twice : DataFrame :=
  mkFrame (Sample.header ++ ["soc"])
    [ mkRow 0 [ Timestamp 900; Str "熄火"; Str "未充电"; Int 350; Int 0;
                Int 100; Int 4; Int 4; Int 25; Int 24; Int 100 ] ].

(** No row has a pack voltage that parses. *)
Definition unusable : DataFrame :=
  mkFrame Sample.header
    [ Sample.sample 0 100 "熄火" (Str "--") 50;
      Sample.sample 1 200 "熄火" NA 51 ].

Definition read_excel (path : string) : string + DataFrame :=
  if String.eqb path "./Data/a.xlsx" then inr Sample.day1
  else if String.eqb path "./Data/b.xlsx" then inr Sample.day3
  else if String.eqb path "./Data/twice.xlsx" then inr twice
  else if String.eqb path "./Data/unusable.xlsx" then inr unusable
  else if String.eqb path "./Data/Vehicle 2/2020/day1.xlsx" then inr Sample.day1
  else inl "File is not a zip file".

(** A reader that answers differently for every file that is no [.xlsx]. *)
Definition read_more (path : string) : string + DataFrame :=
  if endswith path ".xlsx" then read_excel path else inr Sample.day2.

(** A reader that knows nothing outside the folder of the script. *)
Definition read_vehicle_2 (path : string) : string + DataFrame :=
  if String.prefix "./Data/Vehicle 2/" path then read_excel path
  else inl "Permission denied".

Definition disk_full (path : string) (t : parquet) : option string :=
  Some "No space left on device".

Definition a_then_b : option dir :=
  Some (Dir "Data" ["a.xlsx"; "b.xlsx"] []).


Definition duplicated : option dir :=
  Some (Dir "Data" ["twice.xlsx"] []).

Definition nothing_usable : option dir :=
  Some (Dir "Data" ["unusable.xlsx"] []).

Definition vehicle_2 : option dir :=
  Some (Dir "Vehicle 2" ["readme.txt"] [Dir "2020" ["day1.xlsx"] []]).

Definition run (write_error : string -> parquet -> option string)
    (fs : option dir) : world * result unit :=
  preprocess_vehicle_data read_excel Sample.parse_datetime
    Sample.parse_numeric Kinds.stable write_error fs "./Data"
    "processed.parquet" Sample.start.

(** The table a run wrote last. *)
Definition table (fs : option dir) : parquet :=
  match written (fst (run Sample.writable fs)) with
  | (_, t) :: _ => t
  | [] => mkParquet [] []
  end.

(** A run of the script. *)
Definition script (reader : string -> string + DataFrame) (fs : option dir)
    : world * result unit :=
  main reader Sample.parse_datetime Sample.parse_numeric Kinds.stable
    Sample.writable fs Sample.start.

End Cases.

(** ** numpy's quicksort

    [ndarray.argsort(kind='quicksort')] as numpy implements it for a
    one-dimensional [datetime64] array, the keys read as integers: an
    introsort over the array of positions, which starts as 0, 1, 2, ... A
    segment of more than 16 positions is partitioned around the median of
    its first, middle and last key, the larger part is put on a stack and
    the smaller one goes on; a segment of at most 16 positions is sorted by
    insertion; a segment that comes off the stack after more than 2 log2 n
    nested partitions is sorted by heapsort. Only the insertion sort keeps
    equal keys in their original order. *)

Module Numpy.

(** [a[i]] and [a[i] = x] on the array of positions. *)

Definition get (a : list nat) (i : nat) : nat := nth i a 0.

Fixpoint set (a : list nat) (i x : nat) : list nat :=
  match a, i with
  | [], _ => []
  | _ :: a', O => x :: a'
  | y :: a', S i' => y :: set a' i' x
  end.

(** [INTP_SWAP(a[i], a[j])] *)
Definition swap (a : list nat) (i j : nat) : list nat :=
  set (set a i (get a j)) j (get a i).

(** The longest segment left to insertion sort. *)
Definition SMALL_QUICKSORT : nat := 16.

Section Keys.

Variable v : list Z.

Definition less (x y : Z) : bool := (x <? y)%Z.

(** [v[a[i]]] *)
Definition key (a : list nat) (i : nat) : Z := nth (get a i) v 0%Z.

(** [do ++pi; while (v[*pi] < vp)] and [do --pj; while (vp < v[*pj])],
    from the position the first step reaches. The median at [pr - 1] and
    the smaller key at [pl] stop them. *)
Fixpoint scan_up (fuel : nat) (a : list nat) (vp : Z) (pi : nat) : nat :=
  match fuel with
  | O => pi
  | S fuel' => if less (key a pi) vp then scan_up fuel' a vp (S pi) else pi
  end.

Fixpoint scan_down (fuel : nat) (a : list nat) (vp : Z) (pj : nat) : nat :=
  match fuel with
  | O => pj
  | S fuel' => if less vp (key a pj) then scan_down fuel' a vp (pj - 1) else pj
  end.

(** The exchange loop of a partition: positions whose keys are on the wrong
    side of the pivot are swapped, also when a key equals the pivot. *)
Fixpoint exchange (fuel : nat) (a : list nat) (vp : Z) (pi pj : nat)
    : list nat * nat :=
  match fuel with
  | O => (a, pi)
  | S fuel' =>
      let pi := scan_up (length a) a vp (S pi) in
      let pj := scan_down (length a) a vp (pj - 1) in
      if (pj <=? pi)%nat then (a, pi) else exchange fuel' (swap a pi pj) vp pi pj
  end.

(** One partition of the segment from [pl] to [pr]: the positions after it
    and the place of the pivot. *)
Definition partition (a : list nat) (pl pr : nat) : list nat * nat :=
  let pm := pl + (pr - pl) / 2 in
  let a := if less (key a pm) (key a pl) then swap a pm pl else a in
  let a := if less (key a pr) (key a pm) then swap a pr pm else a in
  let a := if less (key a pm) (key a pl) then swap a pm pl else a in
  let vp := key a pm in
  let a := swap a pm (pr - 1) in
  let (a, pi) := exchange (length a) a vp pl (pr - 1) in
  (swap a pi (pr - 1), pi).

(** Insertion sort of the segment from [pl] to [pr]. *)
Fixpoint shift (n : nat) (a : list nat) (pl pj vi : nat) (vp : Z) : list nat :=
  match n with
  | O => set a pj vi
  | S n' =>
      if (pl <? pj)%nat && less vp (key a (pj - 1))
      then shift n' (set a pj (get a (pj - 1))) pl (pj - 1) vi vp
      else set a pj vi
  end.

Definition insertion (a : list nat) (pl pr : nat) : list nat :=
  fold_left (fun a pi => shift pi a pl pi (get a pi) (key a pi))
    (seq (S pl) (pr - pl)) a.

(** Heapsort of the [n] positions from [pl], with the heap counted from
    1. *)
Definition heap_get (a : list nat) (pl k : nat) : nat := get a (pl + k - 1).

Definition heap_set (a : list nat) (pl k x : nat) : list nat :=
  set a (pl + k - 1) x.

Fixpoint sift (fuel : nat) (a : list nat) (pl n tmp i j : nat) : list nat :=
  match fuel with
  | O => heap_set a pl i tmp
  | S fuel' =>
      if (j <=? n)%nat then
        let j :=
          if (j <? n)%nat
             && less (nth (heap_get a pl j) v 0%Z)
                     (nth (heap_get a pl (S j)) v 0%Z)
          then S j else j in
        if less (nth tmp v 0%Z) (nth (heap_get a pl j) v 0%Z)
        then sift fuel' (heap_set a pl i (heap_get a pl j)) pl n tmp j (j + j)
        else heap_set a pl i tmp
      else heap_set a pl i tmp
  end.

Definition heapify (a : list nat) (pl n : nat) : list nat :=
  fold_left (fun a l => sift n a pl n (heap_get a pl l) l (2 * l))
    (rev (seq 1 (n / 2))) a.

Fixpoint extract (fuel : nat) (a : list nat) (pl n : nat) : list nat :=
  match fuel with
  | O => a
  | S fuel' =>
      if (1 <? n)%nat then
        let tmp := heap_get a pl n in
        let a := heap_set a pl n (heap_get a pl 1) in
        extract fuel' (sift n a pl (n - 1) tmp 1 2) pl (n - 1)
      else a
  end.

Definition aheapsort (a : list nat) (pl n : nat) : list nat :=
  extract n (heapify a pl n) pl n.

(** The main loop. [top] is set where the loop starts on a segment taken
    from the stack, the only place where the depth is looked at. *)
Fixpoint introsort (fuel : nat) (top : bool) (a : list nat) (pl pr : nat)
    (cdepth : Z) (stack : list (nat * nat * Z)) : list nat :=
  match fuel with
  | O => a
  | S fuel' =>
      if top && (cdepth <? 0)%Z then
        let a := aheapsort a pl (pr - pl + 1) in
        match stack with
        | [] => a
        | (pl, pr, cdepth) :: stack => introsort fuel' true a pl pr cdepth stack
        end
      else if (SMALL_QUICKSORT <? pr - pl + 1)%nat then
        let (a, pi) := partition a pl pr in
        let cdepth := (cdepth - 1)%Z in
        if (pi - pl <? pr - pi)%nat
        then introsort fuel' false a pl (pi - 1) cdepth
               ((S pi, pr, cdepth) :: stack)
        else introsort fuel' false a (S pi) pr cdepth
               ((pl, pi - 1, cdepth) :: stack)
      else
        let a := insertion a pl pr in
        match stack with
        | [] => a
        | (pl, pr, cdepth) :: stack => introsort fuel' true a pl pr cdepth stack
        end
  end.

(** [aquicksort]: the positions of the keys [v] in sorted order. *)
Definition aquicksort : list nat :=
  let num := length v in
  match num with
  | O => []
  | S _ =>
      introsort (2 * num + 2) true (seq 0 num) 0 (num - 1)
        (2 * Z.of_nat (Nat.log2 num)) []
  end.

End Keys.

Definition quicksort : pd.sort_kind := aquicksort.

End Numpy.

(** ** A file with rows logged at the same time

    Eighteen rows with one [record_time], told apart by their state of
    charge, 0 to 17 in the order of the file; and the run on it with numpy's
    quicksort. *)

Module Ties.

Definition logged (n : nat) : row :=
  Sample.sample n 1000 "车辆启动" (Int 350) (Z.of_nat n).

Definition burst : DataFrame :=
  mkFrame Sample.header (map logged (seq 0 18)).

Definition read_excel (path : string) : string + DataFrame :=
  if String.eqb path "./Data/burst.xlsx" then inr burst
  else inl "File is not a zip file".

Definition files : option dir := Some (Dir "Data" ["burst.xlsx"] []).

Definition run : world * result unit :=
  preprocess_vehicle_data read_excel Sample.parse_datetime
    Sample.parse_numeric Numpy.quicksort Sample.writable files "./Data"
    "processed.parquet" Sample.start.

(** The table the run wrote. *)
Definition table : parquet :=
  match written (fst run) with
  | (_, t) :: _ => t
  | [] => mkParquet [] []
  end.

Definition soc (n : Z) : cell := Num (Sample.float_of_Z n).

End Ties.

(** ** The two algorithms sort *)

Section Insertion.

Import Kinds.

Variable before : Z -> Z -> bool.
Hypothesis before_le : forall a b, before a b = true -> (a <= b)%Z.
Hypothesis before_ge : forall a b, before a b = false -> (b <= a)%Z.

Lemma insert_by_perm x l : Permutation (insert_by before x l) (x :: l).
Proof.
  induction l as [|y l IH]; simpl; [reflexivity|].
  destruct (before (snd x) (snd y)); [reflexivity|].
  rewrite IH. apply perm_swap.
Qed.

Lemma insertion_sort_perm l : Permutation (insertion_sort before l) l.
Proof.
  induction l as [|x l IH]; simpl; [reflexivity|].
  rewrite insert_by_perm. now constructor.
Qed.

Lemma insert_by_sorted x l :
  StronglySorted (fun a b => (snd a <= snd b)%Z) l ->
  StronglySorted (fun a b => (snd a <= snd b)%Z) (insert_by before x l).
Proof.
  induction 1 as [|y l Hs IH Hy]; simpl.
  - constructor; constructor.
  - destruct (before (snd x) (snd y)) eqn:E.
    + apply before_le in E.
      constructor; [constructor; assumption|].
      constructor; [assumption|].
      eapply Forall_impl; [|exact Hy]. simpl. intros; lia.
    + apply before_ge in E.
      constructor; [assumption|].
      eapply Permutation_Forall; [symmetry; apply insert_by_perm|].
      constructor; assumption.
Qed.

Lemma insertion_sort_sorted l :
  StronglySorted (fun a b => (snd a <= snd b)%Z) (insertion_sort before l).
Proof.
  induction l as [|x l IH]; simpl; [constructor|].
  now apply insert_by_sorted.
Qed.

Lemma map_fst_combine_seq (ks : list Z) n :
  map fst (combine (seq n (length ks)) ks) = seq n (length ks).
Proof.
  revert n; induction ks as [|k ks IH]; simpl; intros n; [reflexivity|].
  now rewrite IH.
Qed.

Lemma insertion_argsort_perm ks :
  Permutation (insertion_argsort before ks) (seq 0 (length ks)).
Proof.
  unfold insertion_argsort.
  rewrite insertion_sort_perm.
  now rewrite map_fst_combine_seq.
Qed.

Lemma combine_seq_nth (ks : list Z) n p :
  In p (combine (seq n (length ks)) ks) -> nth (fst p - n) ks 0%Z = snd p.
Proof.
  revert n; induction ks as [|k ks IH]; simpl; intros n H; [contradiction|].
  destruct H as [<-|H]; simpl.
  - now rewrite Nat.sub_diag.
  - assert (Hin : In (fst p) (seq (S n) (length ks))).
    { destruct p as [i v]. eapply in_combine_l; eassumption. }
    apply in_seq in Hin.
    specialize (IH _ H).
    replace (fst p - n) with (S (fst p - S n)) by lia.
    exact IH.
Qed.

Lemma sorted_map_snd (l : list (nat * Z)) :
  StronglySorted (fun a b => (snd a <= snd b)%Z) l ->
  StronglySorted Z.le (map snd l).
Proof.
  induction 1 as [|p l Hs IH Hp]; simpl; constructor; [assumption|].
  rewrite Forall_map. exact Hp.
Qed.

Lemma insertion_argsort_sorted ks :
  StronglySorted Z.le (map (fun i => nth i ks 0%Z) (insertion_argsort before ks)).
Proof.
  unfold insertion_argsort.
  rewrite map_map.
  assert (Hall : forall p, In p (insertion_sort before (combine (seq 0 (length ks)) ks)) ->
                           nth (fst p) ks 0%Z = snd p).
  { intros p Hp.
    eapply Permutation_in in Hp; [|apply insertion_sort_perm].
    apply combine_seq_nth in Hp. now rewrite Nat.sub_0_r in Hp. }
  rewrite (map_ext_in _ snd _ Hall).
  apply sorted_map_snd, insertion_sort_sorted.
Qed.

End Insertion.

Lemma leb_le a b : (a <=? b)%Z = true -> (a <= b)%Z.
Proof. lia. Qed.

Lemma leb_ge a b : (a <=? b)%Z = false -> (b <= a)%Z.
Proof. lia. Qed.

Lemma ltb_le a b : (a <? b)%Z = true -> (a <= b)%Z.
Proof. lia. Qed.

Lemma ltb_ge a b : (a <? b)%Z = false -> (b <= a)%Z.
Proof. lia. Qed.

Lemma stable_sorts : pd.sorts Kinds.stable.
Proof.
  intros ks. split.
  - apply insertion_argsort_perm.
  - apply insertion_argsort_sorted; [apply leb_le|apply leb_ge].
Qed.

Lemma reversing_sorts : pd.sorts Kinds.reversing.
Proof.
  intros ks. split.
  - apply insertion_argsort_perm.
  - apply insertion_argsort_sorted; [apply ltb_le|apply ltb_ge].
Qed.

Lemma ascending_sorted l : Kinds.ascending l = true -> StronglySorted Z.le l.
Proof.
  intros H. apply Sorted_StronglySorted; [exact Z.le_trans|].
  induction l as [|x l IH]; [constructor|].
  destruct l as [|y l]; [repeat constructor|].
  cbn [Kinds.ascending] in H. apply andb_true_iff in H as [Hxy H].
  constructor; [now apply IH|]. constructor. now apply Z.leb_le.
Qed.

Lemma sorted_indexer_spec ks idx :
  Kinds.sorted_indexer ks idx = true ->
  Permutation idx (seq 0 (length ks))
  /\ StronglySorted Z.le (map (fun i => nth i ks 0%Z) idx).
Proof.
  unfold Kinds.sorted_indexer. intros H.
  apply andb_true_iff in H as [H Hs]. apply andb_true_iff in H as [Hl Hi].
  split; [|now apply ascending_sorted].
  symmetry. apply NoDup_Permutation_bis.
  - apply seq_NoDup.
  - apply Nat.eqb_eq in Hl. rewrite Hl, length_seq. lia.
  - intros i Hin. rewrite forallb_forall in Hi. specialize (Hi i Hin).
    apply existsb_exists in Hi as (j & Hj & E). apply Nat.eqb_eq in E.
    now subst.
Qed.

(** A checked algorithm meets the contract of [argsort]. *)
Lemma checked_sorts kind : pd.sorts (Kinds.checked kind).
Proof.
  intros ks. unfold Kinds.checked.
  destruct (Kinds.sorted_indexer ks (kind ks)) eqn:E.
  - now apply sorted_indexer_spec.
  - apply stable_sorts.
Qed.

Example stable_ties : Kinds.stable [3; 1; 3; 1]%Z = [1; 3; 0; 2].
Proof. reflexivity. Qed.

Example reversing_ties : Kinds.reversing [3; 1; 3; 1]%Z = [3; 1; 2; 0].
Proof. reflexivity. Qed.

(** ** The stages on the sample data *)

Example walk_order :
  find_files "./Data" Sample.extra_column
  = ["./Data/day1.xlsx"; "./Data/2020/day3.xlsx"].
Proof. reflexivity. Qed.

Example walk_skips_other_files :
  find_files "./Data" Sample.no_files = []
  /\ find_files "./Data" None = [].
Proof. split; reflexivity. Qed.

Example join_after_slash : path_join "./Data/" "day1.xlsx" = "./Data/day1.xlsx".
Proof. reflexivity. Qed.

Example concat_header :
  columns (pd.concat [Sample.day4; Sample.day3])
  = ["record_time"; "charge_state"; "pack_voltage(V)"; "pack_current(A)";
     "SOC(%)"; "max_cell_voltage (V)"; "min_cell_voltage (V)";
     "max_probe_temperature (℃)"; "min_probe_temperature (℃)";
     "vehicle_state"; "mileage(km)"].
Proof. reflexivity. Qed.

Example concat_fills_missing :
  map (fun r => (label r, value (columns (pd.concat [Sample.day4; Sample.day3]))
                            "vehicle_state" (cells r)))
      (rows (pd.concat [Sample.day4; Sample.day3]))
  = [(0, NA); (1, Str "熄火")].
Proof. reflexivity. Qed.

Example rename_header :
  columns (pd.rename cleaned_columns Sample.day3)
  = canonical_columns ++ ["mileage(km)"].
Proof. reflexivity. Qed.

Example dropna_keeps_complete_rows :
  match pd.dropna ["pack_voltage(V)"]
          (mkFrame Sample.header
             [Sample.sample 0 1 "熄火" NA 50; Sample.sample 1 2 "熄火" (Int 3) 51])
  with
  | Ok df => map label (rows df) = [1]
  | Raise _ => False
  end.
Proof. reflexivity. Qed.

Example nargsort_missing_last :
  pd.nargsort Kinds.stable [Some 30; None; Some 10; Some 30; None]%Z
  = [2; 0; 3; 1; 4].
Proof. reflexivity. Qed.

(** ** Facts about labels, rows and frames *)

Lemma positions_from_spec c cols n i :
  In i (positions_from n c cols) <-> n <= i /\ nth_error cols (i - n) = Some c.
Proof.
  revert n; induction cols as [|c' cols IH]; intros n; simpl.
  - split; [contradiction|]. intros [_ H]. now destruct (i - n).
  - assert (Hrec : In i (positions_from (S n) c cols) <->
                   n <= i /\ i <> n /\ nth_error cols (i - S n) = Some c).
    { rewrite IH. split; [intros [H1 H2]|intros (H1 & H2 & H3)];
        repeat split; try lia; assumption. }
    destruct (String.eqb_spec c' c) as [->|Hne]; simpl; rewrite ?Hrec.
    + split.
      * intros [<-|(H1 & H2 & H3)].
        -- now rewrite Nat.sub_diag.
        -- split; [assumption|].
           replace (i - n) with (S (i - S n)) by lia. exact H3.
      * intros [H1 H2].
        destruct (Nat.eq_dec n i) as [->|Hni]; [now left|right].
        repeat split; try lia.
        replace (i - n) with (S (i - S n)) in H2 by lia. exact H2.
    + split.
      * intros (H1 & H2 & H3). split; [assumption|].
        replace (i - n) with (S (i - S n)) by lia. exact H3.
      * intros [H1 H2].
        destruct (Nat.eq_dec n i) as [->|Hni].
        -- rewrite Nat.sub_diag in H2. simpl in H2. congruence.
        -- repeat split; try lia.
           replace (i - n) with (S (i - S n)) in H2 by lia. exact H2.
Qed.

Lemma positions_spec c cols i :
  In i (positions c cols) <-> nth_error cols i = Some c.
Proof.
  unfold positions. rewrite positions_from_spec, Nat.sub_0_r.
  split; [tauto|]. intros H; split; [lia|assumption].
Qed.

Lemma positions_nil c cols : positions c cols = [] <-> ~ In c cols.
Proof.
  split.
  - intros H Hin. apply In_nth_error in Hin as [i Hi].
    apply positions_spec in Hi. rewrite H in Hi. contradiction.
  - intros H. destruct (positions c cols) as [|i l] eqn:E; [reflexivity|].
    exfalso. apply H. assert (Hi : In i (positions c cols)) by (rewrite E; now left).
    apply positions_spec in Hi. eapply nth_error_In; eassumption.
Qed.

Lemma has_once_positions cols c :
  has_once cols c = true <-> exists i, positions c cols = [i].
Proof.
  unfold has_once. destruct (positions c cols) as [|i [|j l]]; split;
    try discriminate; try (intros [k Hk]; discriminate); eauto.
Qed.

Lemma has_once_In cols c : has_once cols c = true -> In c cols.
Proof.
  intros H. apply has_once_positions in H as [i Hi].
  destruct (in_dec string_dec c cols) as [Hin|Hn]; [assumption|].
  apply positions_nil in Hn. congruence.
Qed.

Lemma positions_from_ge c cols n i :
  In i (positions_from n c cols) -> n <= i.
Proof. intros H. now apply positions_from_spec in H. Qed.

Lemma by_label_length g cols cs :
  length cs = length cols -> length (by_label g cols cs) = length cols.
Proof.
  revert cs; induction cols as [|c cols IH]; intros [|v cs]; simpl;
    try discriminate; auto.
Qed.

Lemma by_label_absent c f cols cs n :
  positions_from n c cols = [] -> length cs = length cols ->
  by_label (only c f) cols cs = cs.
Proof.
  revert cs n; induction cols as [|c' cols IH]; intros [|v cs] n; simpl;
    try discriminate; auto.
  unfold only at 1. rewrite (String.eqb_sym c c').
  destruct (String.eqb c' c); intros Hp Hl; [discriminate|].
  f_equal. eapply IH; eauto.
Qed.

Lemma set_nth_by_label c f cols cs n i :
  positions_from n c cols = [i] -> length cs = length cols ->
  pd.set_nth (i - n) (f (nth (i - n) cs NA)) cs = by_label (only c f) cols cs.
Proof.
  revert cs n; induction cols as [|c' cols IH]; intros [|v cs] n; simpl;
    try discriminate.
  unfold only at 1. rewrite (String.eqb_sym c c').
  destruct (String.eqb c' c) eqn:E; intros Hp Hl.
  - injection Hp as -> Hp. rewrite Nat.sub_diag. simpl.
    f_equal. symmetry. eapply by_label_absent; eauto.
  - assert (Hi : S n <= i).
    { eapply positions_from_ge. rewrite Hp. now left. }
    replace (i - n) with (S (i - S n)) by lia. simpl.
    f_equal. apply IH; auto.
Qed.

Lemma by_label_compose g h cols cs :
  by_label g cols (by_label h cols cs)
  = by_label (fun c v => g c (h c v)) cols cs.
Proof.
  revert cs; induction cols as [|c cols IH]; intros [|v cs]; simpl; auto.
  now rewrite IH.
Qed.

Lemma by_label_nth g cols cs i :
  length cs = length cols -> i < length cols ->
  nth i (by_label g cols cs) NA = g (nth i cols "") (nth i cs NA).
Proof.
  revert cs i; induction cols as [|c cols IH]; intros [|v cs] [|i]; simpl;
    try discriminate; try lia; auto.
  intros Hl Hi. apply IH; lia.
Qed.

(** The value under a label of a rewritten record. *)
Lemma value_by_label g cols cs c :
  length cs = length cols ->
  In c cols ->
  value cols c (by_label g cols cs) = g c (value cols c cs).
Proof.
  intros Hl Hin. unfold value.
  destruct (positions c cols) as [|i l] eqn:E.
  - apply positions_nil in E. contradiction.
  - assert (Hi : nth_error cols i = Some c).
    { apply positions_spec. rewrite E. now left. }
    assert (Hlt : i < length cols).
    { apply nth_error_Some. congruence. }
    rewrite by_label_nth by assumption.
    now rewrite (nth_error_nth _ _ _ Hi).
Qed.

Lemma assign_map i g rs :
  pd.assign i (map g (map (at_pos i) rs)) rs
  = map (on_cells (fun cs => pd.set_nth i (g (nth i cs NA)) cs)) rs.
Proof.
  induction rs as [|r rs IH]; simpl; [reflexivity|].
  now rewrite IH.
Qed.

Lemma convert_coerce V (parse : cell -> option V) box s :
  pd.convert parse box pd.errors_coerce s = Ok (map (coerce_cell parse box) s).
Proof.
  induction s as [|v s IH]; simpl; [reflexivity|].
  unfold coerce_cell at 1.
  destruct (parse v); rewrite IH; reflexivity.
Qed.

Lemma map_cells_relabel n l : map cells (pd.relabel n l) = l.
Proof.
  revert n; induction l as [|cs l IH]; intros n; simpl; [reflexivity|].
  now rewrite IH.
Qed.

Lemma length_relabel n l : length (pd.relabel n l) = length l.
Proof.
  revert n; induction l as [|cs l IH]; intros n; simpl; auto.
Qed.

Lemma concat_well_formed dfs : well_formed (pd.concat dfs).
Proof.
  unfold well_formed, pd.concat. simpl.
  apply Forall_forall. intros r Hr.
  assert (Hc : In (cells r) (map cells (pd.relabel 0
                 (flat_map (pd.reindexed (pd.union_columns dfs)) dfs)))).
  { now apply in_map. }
  rewrite map_cells_relabel in Hc.
  apply in_flat_map in Hc as (df & _ & Hc).
  unfold pd.reindexed in Hc. apply in_map_iff in Hc as (r0 & <- & _).
  unfold pd.reindex_row. now rewrite length_map.
Qed.

Lemma rename_well_formed m df : well_formed df -> well_formed (pd.rename m df).
Proof.
  unfold well_formed, pd.rename. simpl. now rewrite length_map.
Qed.

(** ** Column rewrites

    Steps 5 and 6 all have the shape [df[c] = f(df[c])] for a function [f]
    that works value by value. *)

Lemma map_rows_well_formed g df :
  (forall cs, length cs = length (columns df) ->
              length (g cs) = length (columns df)) ->
  well_formed df -> well_formed (map_rows g df).
Proof.
  unfold well_formed, map_rows. simpl. intros Hg Hwf.
  rewrite Forall_map. eapply Forall_impl; [|exact Hwf].
  simpl. intros r Hr. now apply Hg.
Qed.

Lemma stage_ok c f df :
  has_once (columns df) c = true -> well_formed df ->
  stage c f df = Ok (map_rows (by_label (only c f) (columns df)) df).
Proof.
  intros Hc Hwf. apply has_once_positions in Hc as [i Hi].
  unfold stage, pd.getitem. rewrite Hi. simpl.
  unfold pd.setitem, pd.series, map_rows. f_equal. f_equal.
  rewrite assign_map. apply map_ext_in. intros r Hr.
  unfold on_cells. f_equal.
  unfold well_formed in Hwf. rewrite Forall_forall in Hwf.
  specialize (Hwf r Hr).
  pose proof (set_nth_by_label c f (columns df) (cells r) 0 i Hi Hwf) as H.
  now rewrite Nat.sub_0_r in H.
Qed.

Lemma stage_raise c f df :
  has_once (columns df) c = false ->
  exists e, stage c f df = Raise e /\ column_error c e.
Proof.
  unfold has_once, stage, pd.getitem, column_error.
  destruct (positions c (columns df)) as [|i [|j l]]; try discriminate; intros _.
  - exists (KeyError c). auto.
  - exists (TypeError c). auto.
Qed.

Lemma stage_columns c f df df' :
  stage c f df = Ok df' -> columns df' = columns df.
Proof.
  unfold stage. destruct (pd.getitem df c); simpl; [|discriminate].
  intros H; injection H as <-. reflexivity.
Qed.

Lemma map_rows_id df :
  well_formed df -> map_rows (by_label (stage_fun []) (columns df)) df = df.
Proof.
  destruct df as [cols rs]. unfold well_formed, map_rows. simpl. intros Hwf.
  f_equal. rewrite <- (map_id rs) at 2. apply map_ext_in. intros [n cs] Hr.
  unfold on_cells. simpl. f_equal.
  rewrite Forall_forall in Hwf. specialize (Hwf _ Hr). simpl in Hwf.
  clear Hr. revert cs Hwf.
  induction cols as [|c cols IH]; intros [|v cs]; simpl; try discriminate; auto.
  intros Hl. f_equal. apply IH. lia.
Qed.

Lemma map_rows_compose g h df :
  map_rows g (map_rows h df) = map_rows (fun cs => g (h cs)) df.
Proof.
  unfold map_rows. simpl. f_equal. rewrite map_map. reflexivity.
Qed.

Lemma map_rows_ext g h df :
  (forall cs, g cs = h cs) -> map_rows g df = map_rows h df.
Proof.
  intros H. unfold map_rows. f_equal. apply map_ext. intros r.
  unfold on_cells. now rewrite H.
Qed.

Lemma run_stages_ok st df :
  forallb (has_once (columns df)) (map fst st) = true -> well_formed df ->
  run_stages st df = Ok (map_rows (by_label (stage_fun st) (columns df)) df).
Proof.
  revert df; induction st as [|[c f] st IH]; intros df Hall Hwf; simpl.
  - now rewrite map_rows_id.
  - simpl in Hall. apply andb_true_iff in Hall as [Hc Hall].
    rewrite (stage_ok c f df Hc Hwf). simpl.
    rewrite IH.
    + simpl. rewrite map_rows_compose. f_equal.
      apply map_rows_ext. intros cs.
      rewrite by_label_compose. reflexivity.
    + exact Hall.
    + apply map_rows_well_formed; [|assumption].
      intros cs Hl. now apply by_label_length.
Qed.

Lemma run_stages_raise st df :
  forallb (has_once (columns df)) (map fst st) = false ->
  exists e c, run_stages st df = Raise e /\ In c (map fst st) /\ column_error c e.
Proof.
  revert df; induction st as [|[c f] st IH]; intros df Hall; simpl in *.
  - discriminate.
  - destruct (has_once (columns df) c) eqn:Hc; simpl in Hall.
    + destruct (stage c f df) as [df'|e] eqn:E; simpl.
      * rewrite <- (stage_columns _ _ _ _ E) in Hall.
        destruct (IH _ Hall) as (e & c' & H1 & H2 & H3).
        exists e, c'. auto.
      * destruct (stage_raise c f df) as (e' & He' & Hk);
          [unfold has_once in *; unfold stage, pd.getitem in E;
           destruct (positions c (columns df)) as [|? [|? ?]];
           simpl in E; congruence|].
        exists e, c. rewrite E in He'. injection He' as ->. auto.
    + destruct (stage_raise c f df Hc) as (e & He & Hk).
      exists e, c. rewrite He. auto.
Qed.

Lemma run_stages_app st1 st2 df :
  run_stages (st1 ++ st2) df
  = try df' := run_stages st1 df in run_stages st2 df'.
Proof.
  revert df; induction st1 as [|[c f] st1 IH]; intros df; simpl; [reflexivity|].
  destruct (stage c f df); simpl; auto.
Qed.

(** ** Sorting *)

Lemma map_nth_seq {A} (l : list A) (d : A) n :
  map (fun i => nth (i - n) l d) (seq n (length l)) = l.
Proof.
  revert n; induction l as [|x l IH]; intros n; simpl; [reflexivity|].
  rewrite Nat.sub_diag. f_equal.
  rewrite <- (IH (S n)) at 2. apply map_ext_in. intros i Hi.
  apply in_seq in Hi. now replace (i - n) with (S (i - S n)) by lia.
Qed.

Lemma map_nth_seq0 {A} (l : list A) (d : A) :
  map (fun i => nth i l d) (seq 0 (length l)) = l.
Proof.
  rewrite <- (map_nth_seq l d 0) at 2. apply map_ext. intros i.
  now rewrite Nat.sub_0_r.
Qed.

Lemma split_na_present ks n :
  pd.split_na n (map Some ks) = (combine (seq n (length ks)) ks, []).
Proof.
  revert n; induction ks as [|k ks IH]; intros n; simpl; [reflexivity|].
  now rewrite IH.
Qed.

Lemma map_snd_combine_seq (ks : list Z) n :
  map snd (combine (seq n (length ks)) ks) = ks.
Proof.
  revert n; induction ks as [|k ks IH]; intros n; simpl; [reflexivity|].
  now rewrite IH.
Qed.

(** Without missing keys [nargsort] is the algorithm itself. *)
Lemma nargsort_present kind ks :
  pd.sorts kind -> pd.nargsort kind (map Some ks) = kind ks.
Proof.
  intros Hk. unfold pd.nargsort. rewrite split_na_present.
  rewrite map_snd_combine_seq, map_fst_combine_seq, app_nil_r.
  rewrite <- (map_id (kind ks)) at 2.
  apply map_ext_in. intros j Hj.
  eapply Permutation_in in Hj; [|apply Hk].
  apply in_seq in Hj. rewrite seq_nth by lia. reflexivity.
Qed.

Lemma map_take {B} (g : row -> B) (d : B) idx rs :
  Forall (fun i => i < length rs) idx ->
  map g (pd.take idx rs) = map (fun i => nth i (map g rs) d) idx.
Proof.
  intros H. unfold pd.take. rewrite map_map.
  apply map_ext_in. intros i Hi. rewrite Forall_forall in H.
  specialize (H i Hi).
  rewrite (nth_indep (map g rs) d (g (mkRow 0 []))) by now rewrite length_map.
  now rewrite map_nth.
Qed.

Lemma argsort_bound kind ks :
  pd.sorts kind -> Forall (fun i => i < length ks) (kind ks).
Proof.
  intros Hk. apply Forall_forall. intros i Hi.
  eapply Permutation_in in Hi; [|apply Hk].
  apply in_seq in Hi. lia.
Qed.

Lemma pick_perm {A} (d : A) l idx :
  Permutation idx (seq 0 (length l)) -> Permutation (pick d l idx) l.
Proof.
  intros H. unfold pick. rewrite (Permutation_map _ H).
  now rewrite map_nth_seq0.
Qed.

Lemma map_pick {A B} (g : A -> B) (d : A) (d' : B) l idx :
  Forall (fun i => i < length l) idx ->
  map g (pick d l idx) = pick d' (map g l) idx.
Proof.
  intros H. unfold pick. rewrite map_map. apply map_ext_in. intros i Hi.
  rewrite Forall_forall in H. specialize (H i Hi).
  rewrite (nth_indep (map g l) d' (g d)) by now rewrite length_map.
  now rewrite map_nth.
Qed.

Lemma forallb_ext_in {A} (f g : A -> bool) l :
  (forall x, In x l -> f x = g x) -> forallb f l = forallb g l.
Proof.
  induction l as [|x l IH]; simpl; [reflexivity|]. intros H.
  rewrite H by now left. f_equal. apply IH. intros y Hy. apply H. now right.
Qed.

(** ** The run, stage by stage *)

Section Run.

Variable read_excel : string -> string + DataFrame.
Variable parse_datetime : cell -> option Z.
Variable parse_numeric : cell -> option spec_float.
Variable quicksort : pd.sort_kind.
Variable write_error : string -> parquet -> option string.

Hypothesis quicksort_sorts : pd.sorts quicksort.

Local Abbreviation surviving := (surviving parse_datetime parse_numeric).
Local Abbreviation expected_table :=
  (expected_table parse_datetime parse_numeric quicksort).
Local Abbreviation found_log := (found_log read_excel).
Local Abbreviation success_log := (success_log parse_datetime parse_numeric).
Local Abbreviation normalize_record := (normalize_record parse_datetime parse_numeric).
Local Abbreviation normalize_value := (normalize_value parse_datetime parse_numeric).
Local Abbreviation required_ok := (required_ok parse_datetime parse_numeric).
Local Abbreviation rows_dropped := (rows_dropped parse_datetime parse_numeric).
Local Abbreviation stages := (stages parse_datetime parse_numeric).
Local Abbreviation process := (process parse_datetime parse_numeric quicksort write_error).
Local Abbreviation preprocess_vehicle_data :=
  (preprocess_vehicle_data read_excel parse_datetime parse_numeric quicksort
     write_error).
Local Abbreviation loaded := (loaded read_excel).
Local Abbreviation warnings := (warnings read_excel).
Local Abbreviation read_files := (read_files read_excel).

Lemma bind_print {B} m (k : unit -> M B) w :
  bind (print m) k w = k tt (mkWorld (stdout w ++ [m]) (written w)).
Proof. reflexivity. Qed.

Lemma bind_lift {A B} (r : result A) (k : A -> M B) w :
  bind (lift r) k w = match r with
                      | Ok a => k a w
                      | Raise e => (w, Raise e)
                      end.
Proof. destruct r; reflexivity. Qed.

Lemma bind_ret {A B} (a : A) (k : A -> M B) w : bind (ret a) k w = k a w.
Proof. reflexivity. Qed.

(** One [print] of the function under proof. *)
Ltac printed :=
  rewrite bind_print; cbv beta zeta; cbn [stdout written].

Lemma read_files_spec all_files w :
  read_files all_files w
  = (mkWorld (stdout w ++ warnings all_files) (written w), Ok (loaded all_files)).
Proof.
  revert w; induction all_files as [|p ps IH]; intros w; simpl.
  - unfold ret. rewrite app_nil_r. now destruct w.
  - destruct (read_excel p) as [e|df].
    + rewrite bind_print, IH. simpl. now rewrite <- app_assoc.
    + unfold bind. now rewrite IH.
Qed.

Lemma translate_stage c d df :
  translate c d df = stage c (pd.map_value d) df.
Proof. reflexivity. Qed.

Lemma coerce_stage {V} (parse : cell -> option V) box c df :
  coerce (pd.convert parse box) c df = stage c (coerce_cell parse box) df.
Proof.
  unfold coerce, stage. destruct (pd.getitem df c); simpl; [|reflexivity].
  now rewrite convert_coerce.
Qed.

Lemma coerce_numeric_stages cols df :
  coerce_numeric parse_numeric cols df
  = run_stages (map (fun c => (c, coerce_cell parse_numeric Num)) cols) df.
Proof.
  revert df; induction cols as [|c cols IH]; intros df; simpl; [reflexivity|].
  unfold to_numeric. rewrite coerce_stage.
  destruct (stage c _ df); simpl; auto.
Qed.

(** Steps 5 and 6 are the column rewrites [stages], one after the other. *)
Lemma normalize_chain df :
  run_stages stages df
  = try d1 := translate "vehicle_state" vehicle_state_map df in
    try d2 := translate "charge_state" charge_state_map d1 in
    try d3 := coerce (to_datetime parse_datetime) "record_time" d2 in
    coerce_numeric parse_numeric numeric_cols d3.
Proof.
  unfold preprocess.stages. rewrite run_stages_app. cbn [run_stages].
  rewrite translate_stage.
  destruct (stage "vehicle_state" _ df) as [d1|]; cbn [rbind]; [|reflexivity].
  rewrite translate_stage.
  destruct (stage "charge_state" _ d1) as [d2|]; cbn [rbind]; [|reflexivity].
  unfold to_datetime. rewrite coerce_stage.
  destruct (stage "record_time" _ d2) as [d3|]; cbn [rbind]; [|reflexivity].
  now rewrite coerce_numeric_stages.
Qed.

Lemma usable_referenced cols :
  usable cols = forallb (has_once cols) (map fst stages).
Proof. reflexivity. Qed.

(** *** The filter of step 7 on rewritten rows *)

Lemma complete_labels cols labels r :
  forallb (has_once cols) labels = true ->
  pd.complete (pd.subset_positions labels cols) r
  = forallb (fun c => notna (value cols c (cells r))) labels.
Proof.
  unfold pd.complete, pd.subset_positions.
  induction labels as [|c labels IH]; simpl; [reflexivity|].
  intros H. apply andb_true_iff in H as [Hc H].
  apply has_once_positions in Hc as [i Hi].
  rewrite forallb_app, IH by assumption.
  unfold value. rewrite Hi. simpl. unfold at_pos.
  now rewrite andb_true_r.
Qed.

Lemma normalize_time v :
  normalize_value "record_time" v = coerce_cell parse_datetime Timestamp v.
Proof. reflexivity. Qed.

Lemma normalize_numeric c v :
  In c numeric_cols ->
  normalize_value c v = coerce_cell parse_numeric Num v.
Proof.
  unfold numeric_cols. simpl.
  intros H; repeat (destruct H as [<-|H]; [reflexivity|]); contradiction.
Qed.

Lemma notna_time v :
  notna (coerce_cell parse_datetime Timestamp v)
  = parses_datetime parse_datetime v.
Proof.
  unfold coerce_cell, parses_datetime. now destruct (parse_datetime v).
Qed.

Lemma notna_numeric v :
  notna (coerce_cell parse_numeric Num v) = parses_numeric parse_numeric v.
Proof.
  unfold coerce_cell, parses_numeric. now destruct (parse_numeric v).
Qed.

Lemma usable_required cols :
  usable cols = true ->
  forallb (has_once cols) ("record_time" :: numeric_cols) = true.
Proof.
  unfold usable. cbn [forallb]. intros H.
  apply andb_true_iff in H as [_ H]. apply andb_true_iff in H as [_ H].
  exact H.
Qed.

Lemma usable_In cols c :
  usable cols = true ->
  In c ("vehicle_state" :: "charge_state" :: "record_time" :: numeric_cols) ->
  has_once cols c = true.
Proof.
  unfold usable. rewrite forallb_forall. auto.
Qed.

Lemma complete_required cols r :
  usable cols = true -> length (cells r) = length cols ->
  pd.complete (pd.subset_positions ("record_time" :: numeric_cols) cols)
    (on_cells (normalize_record cols) r)
  = required_ok cols (cells r).
Proof.
  intros Hu Hl.
  rewrite complete_labels by now apply usable_required.
  unfold preprocess.required_ok. cbn [forallb on_cells cells].
  f_equal.
  - unfold preprocess.normalize_record.
    rewrite value_by_label; [|assumption|].
    + apply notna_time.
    + apply has_once_In, usable_In; [assumption|]. simpl; auto.
  - apply forallb_ext_in. intros c Hc.
    unfold preprocess.normalize_record.
    rewrite value_by_label; [|assumption|].
    + rewrite normalize_numeric by assumption. apply notna_numeric.
    + apply has_once_In, usable_In; [assumption|]. simpl in *; tauto.
Qed.

Lemma dropna_ok labels df :
  forallb (has_once (columns df)) labels = true ->
  pd.dropna labels df
  = Ok (mkFrame (columns df)
          (filter (pd.complete (pd.subset_positions labels (columns df)))
                  (rows df))).
Proof.
  intros H. unfold pd.dropna.
  replace (filter _ labels) with (@nil string); [reflexivity|].
  symmetry. rewrite forallb_forall in H.
  induction labels as [|c labels IH]; simpl; [reflexivity|].
  assert (Hc : existsb (String.eqb c) (columns df) = true).
  { apply existsb_exists. exists c. split; [|apply String.eqb_refl].
    apply has_once_In, H. now left. }
  rewrite Hc. simpl. apply IH. intros x Hx. apply H. now right.
Qed.

(** The rows that are left after step 7. *)
Lemma filter_normalized cols rs :
  usable cols = true ->
  Forall (fun r => length (cells r) = length cols) rs ->
  filter (pd.complete (pd.subset_positions ("record_time" :: numeric_cols) cols))
         (map (on_cells (normalize_record cols)) rs)
  = map (on_cells (normalize_record cols))
        (filter (fun r => required_ok cols (cells r)) rs).
Proof.
  intros Hu Hwf. rewrite filter_map_swap. f_equal.
  apply filter_ext_in. intros r Hr.
  rewrite Forall_forall in Hwf. now apply complete_required, Hwf.
Qed.

Lemma cells_kept cols rs :
  map cells (map (on_cells (normalize_record cols))
                 (filter (fun r => required_ok cols (cells r)) rs))
  = map (normalize_record cols) (filter (required_ok cols) (map cells rs)).
Proof.
  rewrite filter_map_swap, !map_map. reflexivity.
Qed.

(** After steps 6 and 7 every time is a timestamp. *)
Lemma time_of_kept cols cs :
  usable cols = true -> length cs = length cols ->
  required_ok cols cs = true ->
  value cols "record_time" (normalize_record cols cs)
  = Timestamp (time_of cols (normalize_record cols cs)).
Proof.
  intros Hu Hl Hok. unfold time_of, preprocess.normalize_record.
  rewrite value_by_label;
    [|assumption|apply has_once_In, usable_In; simpl; auto].
  rewrite normalize_time.
  unfold preprocess.required_ok in Hok. apply andb_true_iff in Hok as [Ht _].
  unfold parses_datetime in Ht. unfold coerce_cell.
  now destruct (parse_datetime _).
Qed.

Lemma sort_values_kept cols rs :
  usable cols = true ->
  Forall (fun r => length (cells r) = length cols) rs ->
  let kept := map (on_cells (normalize_record cols))
                  (filter (fun r => required_ok cols (cells r)) rs) in
  pd.sort_values quicksort "record_time" (mkFrame cols kept)
  = Ok (mkFrame cols
          (pd.take (quicksort (map (time_of cols) (map cells kept)))
                   kept)).
Proof.
  intros Hu Hwf kept.
  assert (Hrt : has_once cols "record_time" = true).
  { apply usable_In; simpl; auto. }
  apply has_once_positions in Hrt as [i Hi].
  unfold pd.sort_values, pd.getitem. cbn [columns rows]. rewrite Hi.
  cbn [rbind]. f_equal. f_equal. f_equal.
  rewrite <- nargsort_present by assumption. f_equal.
  unfold pd.series. cbn [rows]. rewrite !map_map.
  apply map_ext_in. intros r Hr.
  unfold kept in Hr. apply in_map_iff in Hr as (r0 & <- & Hr0).
  apply filter_In in Hr0 as [Hin Hok].
  rewrite Forall_forall in Hwf. specialize (Hwf _ Hin).
  cbn [on_cells cells].
  assert (Hv : at_pos i (on_cells (normalize_record cols) r0)
               = value cols "record_time" (normalize_record cols (cells r0))).
  { unfold value, at_pos. rewrite Hi. reflexivity. }
  rewrite Hv, time_of_kept by assumption. reflexivity.
Qed.

Lemma dropped_count cols rs :
  length rs - length (filter (fun r => required_ok cols (cells r)) rs)
  = length (filter (fun r => negb (required_ok cols (cells r))) rs).
Proof.
  pose proof (filter_length (fun r => required_ok cols (cells r)) rs) as H.
  cbv beta in H. lia.
Qed.

(** Steps 3 to 9 on a unified table in which every column the code reads
    exists once. *)
Lemma process_success df_list out w :
  let U := unified df_list in
  usable (columns U) = true ->
  process df_list out w
  = match write_error out (expected_table U) with
    | Some e =>
        (mkWorld (stdout w ++ success_log U out) (written w),
         Raise (IOError e))
    | None =>
        (mkWorld (stdout w ++ success_log U out ++ final_log (expected_table U))
                 ((out, expected_table U) :: written w),
         Ok tt)
    end.
Proof.
  intros U Hu.
  assert (Hwf : well_formed U).
  { apply rename_well_formed, concat_well_formed. }
  pose proof (run_stages_ok stages U) as Hrun.
  rewrite <- usable_referenced in Hrun. specialize (Hrun Hu Hwf).
  rewrite normalize_chain in Hrun.
  unfold preprocess.process.
  do 3 printed.
  change (pd.rename cleaned_columns (pd.concat df_list)) with U.
  change (len (pd.concat df_list)) with (len U).
  rewrite bind_lift.
  destruct (translate "vehicle_state" vehicle_state_map U) as [d1|];
    cbn [rbind] in Hrun; [|discriminate].
  rewrite bind_lift.
  destruct (translate "charge_state" charge_state_map d1) as [d2|];
    cbn [rbind] in Hrun; [|discriminate].
  printed.
  rewrite bind_lift.
  destruct (coerce (to_datetime parse_datetime) "record_time" d2) as [d3|];
    cbn [rbind] in Hrun; [|discriminate].
  rewrite bind_lift. rewrite Hrun.
  rewrite bind_lift.
  rewrite dropna_ok by (cbn [map_rows columns]; now apply usable_required).
  cbn [map_rows columns rows].
  fold (normalize_record (columns U)).
  rewrite filter_normalized by assumption.
  unfold len at 1 2 3 4. cbn [rows map_rows].
  rewrite !length_map, dropped_count.
  change (length (filter _ (rows U))) with (rows_dropped U).
  assert (Hdrop : forall (k : unit -> M unit) w0,
            bind (if (0 <? rows_dropped U)%nat
                  then print (Dropped (rows_dropped U)) else ret tt) k w0
            = k tt (mkWorld (stdout w0 ++ dropped_line (rows_dropped U))
                            (written w0))).
  { intros k w0. unfold dropped_line.
    destruct (0 <? rows_dropped U)%nat.
    - apply bind_print.
    - rewrite bind_ret, app_nil_r. now destruct w0. }
  rewrite Hdrop; cbn [stdout written].
  printed.
  rewrite bind_lift.
  pose proof (sort_values_kept (columns U) (rows U) Hu Hwf) as Hsort.
  cbv zeta in Hsort. rewrite Hsort. clear Hsort.
  printed.
  match goal with
  | |- context [pd.reset_index ?F] =>
      assert (Hreset : pd.reset_index F
               = mkFrame (columns U) (pd.relabel 0 (records (expected_table U))))
  end.
  { unfold pd.reset_index. cbn [columns rows]. f_equal. f_equal.
    unfold expected_table, surviving. cbn [records].
    rewrite <- cells_kept.
    apply map_take.
    eapply Forall_impl; [|now apply argsort_bound].
    intros i Hi. rewrite !length_map in Hi. now rewrite length_map. }
  rewrite Hreset. clear Hreset.
  unfold bind at 1. unfold to_parquet. cbn [columns rows stdout written].
  rewrite map_cells_relabel.
  change (mkParquet (columns U) (records (expected_table U)))
    with (expected_table U).
  unfold success_log.
  destruct (write_error out (expected_table U)) as [e|].
  - rewrite <- !app_assoc. reflexivity.
  - do 3 printed.
    unfold print, final_log, len. cbn [rows stdout written].
    rewrite length_relabel, <- !app_assoc. reflexivity.
Qed.

(** Steps 3 to 9 when a column the code reads is absent or duplicated. *)
Lemma process_failure df_list out w :
  usable (columns (unified df_list)) = false ->
  exists w' e c,
    process df_list out w = (w', Raise e)
    /\ written w' = written w
    /\ In c ("vehicle_state" :: "charge_state" :: "record_time" :: numeric_cols)
    /\ column_error c e.
Proof.
  intros Hu. set (U := unified df_list) in *.
  rewrite usable_referenced in Hu.
  destruct (run_stages_raise stages U Hu) as (e & c & Hrun & Hc & He).
  rewrite normalize_chain in Hrun.
  unfold preprocess.process.
  do 3 printed.
  change (pd.rename cleaned_columns (pd.concat df_list)) with U.
  rewrite bind_lift.
  destruct (translate "vehicle_state" vehicle_state_map U) as [d1|e1];
    cbn [rbind] in Hrun;
    [|injection Hrun as ->; eexists _, e, c; repeat split; eauto].
  rewrite bind_lift.
  destruct (translate "charge_state" charge_state_map d1) as [d2|e2];
    cbn [rbind] in Hrun;
    [|injection Hrun as ->; eexists _, e, c; repeat split; eauto].
  printed.
  rewrite bind_lift.
  destruct (coerce (to_datetime parse_datetime) "record_time" d2) as [d3|e3];
    cbn [rbind] in Hrun;
    [|injection Hrun as ->; eexists _, e, c; repeat split; eauto].
  rewrite bind_lift, Hrun.
  eexists _, e, c; repeat split; eauto.
Qed.

(** *** The whole function *)

Lemma preprocess_no_files fs base_path out w :
  find_files base_path fs = [] ->
  preprocess_vehicle_data fs base_path out w
  = (mkWorld (stdout w ++ [Searching base_path; ErrorNoFiles]) (written w),
     Ok tt).
Proof.
  intros H. unfold preprocess.preprocess_vehicle_data.
  rewrite bind_print; cbv beta zeta. rewrite H.
  unfold print. cbn [stdout written]. now rewrite <- app_assoc.
Qed.

Lemma preprocess_read fs base_path out w :
  find_files base_path fs <> [] ->
  preprocess_vehicle_data fs base_path out w
  = let all_files := find_files base_path fs in
    let w' := mkWorld (stdout w ++ found_log base_path all_files) (written w) in
    match loaded all_files with
    | [] => (mkWorld (stdout w' ++ [ErrorNoFrames]) (written w), Ok tt)
    | _ :: _ => process (loaded all_files) out w'
    end.
Proof.
  intros H. unfold preprocess.preprocess_vehicle_data.
  rewrite bind_print; cbv beta zeta.
  destruct (find_files base_path fs) as [|p ps] eqn:E; [congruence|].
  printed.
  unfold bind at 1. rewrite read_files_spec. cbn [stdout written].
  replace (((stdout w ++ [Searching base_path]) ++ [Found (length (p :: ps))])
           ++ warnings (p :: ps))
    with (stdout w ++ found_log base_path (p :: ps))
    by (unfold found_log; now rewrite <- !app_assoc).
  destruct (loaded (p :: ps)); reflexivity.
Qed.

Lemma cons_neq_self {A} (x : A) l : l <> x :: l.
Proof.
  intros H. apply (f_equal (@length A)) in H. simpl in H. lia.
Qed.

(** A run that writes a file went through every stage: files were found,
    some loaded, every column the code reads was there once, and the
    writer did not fail. The file holds the expected table. *)
Lemma run_written fs base_path out w w' r t :
  preprocess_vehicle_data fs base_path out w = (w', r) ->
  written w' = (out, t) :: written w ->
  let all_files := find_files base_path fs in
  let U := unified (loaded all_files) in
  all_files <> [] /\ loaded all_files <> []
  /\ usable (columns U) = true
  /\ write_error out t = None
  /\ t = expected_table U
  /\ r = Ok tt
  /\ stdout w' = stdout w ++ found_log base_path all_files
                 ++ success_log U out ++ final_log t.
Proof.
  intros Hrun Hw all_files U.
  destruct (find_files base_path fs) as [|p ps] eqn:E.
  - rewrite preprocess_no_files in Hrun by assumption.
    injection Hrun as <- <-. cbn [written] in Hw.
    now apply cons_neq_self in Hw.
  - rewrite preprocess_read in Hrun by congruence.
    cbv zeta in Hrun. rewrite E in Hrun. fold all_files in Hrun.
    destruct (loaded all_files) as [|df dfs] eqn:El.
    + injection Hrun as <- <-. cbn [written] in Hw.
      now apply cons_neq_self in Hw.
    + fold U in Hrun.
      destruct (usable (columns U)) eqn:Hu.
      * rewrite process_success in Hrun by assumption.
        fold U in Hrun.
        destruct (write_error out (expected_table U)) as [e|] eqn:Ew.
        -- injection Hrun as <- <-. cbn [written] in Hw.
           now apply cons_neq_self in Hw.
        -- injection Hrun as <- <-. cbn [written stdout] in *.
           injection Hw as <-.
           repeat split; try congruence.
           ++ subst all_files. discriminate.
           ++ unfold success_log. now rewrite <- !app_assoc.
      * destruct (process_failure (df :: dfs) out
                    (mkWorld (stdout w ++ found_log base_path all_files)
                             (written w)) Hu)
          as (w1 & e & c & Hp & Hw1 & _).
        rewrite Hp in Hrun. injection Hrun as <- <-.
        rewrite Hw1 in Hw. cbn [written] in Hw.
        now apply cons_neq_self in Hw.
Qed.

(** *** The written table *)

Lemma surviving_length df :
  length (surviving df) = len df - rows_dropped df.
Proof.
  unfold surviving, preprocess.rows_dropped, len.
  rewrite length_map, filter_map_swap, length_map.
  pose proof (filter_length (fun r => required_ok (columns df) (cells r))
                (rows df)) as H.
  cbv beta in H. lia.
Qed.

Lemma expected_perm df :
  Permutation (records (expected_table df)) (surviving df).
Proof.
  unfold expected_table. cbn [records]. apply pick_perm.
  rewrite <- (length_map (time_of (columns df)) (surviving df)).
  apply quicksort_sorts.
Qed.

Lemma surviving_In df rec :
  In rec (surviving df) <->
  exists raw, In raw (map cells (rows df))
              /\ required_ok (columns df) raw = true
              /\ rec = normalize_record (columns df) raw.
Proof.
  unfold surviving. rewrite in_map_iff. split.
  - intros (raw & <- & H). apply filter_In in H as [H1 H2]. eauto.
  - intros (raw & H1 & H2 & ->). exists raw. split; [reflexivity|].
    apply filter_In. auto.
Qed.

Lemma raw_length df raw :
  well_formed df -> In raw (map cells (rows df)) ->
  length raw = length (columns df).
Proof.
  unfold well_formed. rewrite Forall_forall. intros H Hin.
  apply in_map_iff in Hin as (r & <- & Hr). auto.
Qed.

(** The required values of a row that passes the filter. *)
Lemma kept_values cols raw :
  usable cols = true -> length raw = length cols ->
  required_ok cols raw = true ->
  (exists ts, parse_datetime (value cols "record_time" raw) = Some ts
              /\ value cols "record_time" (normalize_record cols raw)
                 = Timestamp ts)
  /\ forall c, In c numeric_cols ->
       exists x, parse_numeric (value cols c raw) = Some x
                 /\ is_nan x = false
                 /\ value cols c (normalize_record cols raw) = Num x.
Proof.
  intros Hu Hl Hok. unfold preprocess.required_ok in Hok.
  apply andb_true_iff in Hok as [Ht Hn]. split.
  - unfold preprocess.normalize_record.
    rewrite value_by_label;
      [|assumption|apply has_once_In, usable_In; simpl; auto].
    rewrite normalize_time. unfold parses_datetime in Ht. unfold coerce_cell.
    destruct (parse_datetime _) as [ts|]; [eauto|discriminate].
  - intros c Hc. rewrite forallb_forall in Hn. specialize (Hn c Hc).
    unfold preprocess.normalize_record.
    rewrite value_by_label;
      [|assumption|apply has_once_In, usable_In; simpl in *; tauto].
    rewrite normalize_numeric by assumption.
    unfold parses_numeric in Hn. unfold coerce_cell.
    destruct (parse_numeric _) as [x|]; [|discriminate].
    exists x. apply negb_true_iff in Hn. auto.
Qed.

Lemma expected_times df :
  usable (columns df) = true -> well_formed df ->
  map (value (columns df) "record_time") (records (expected_table df))
  = map Timestamp
        (pick 0%Z (map (time_of (columns df)) (surviving df))
           (quicksort (map (time_of (columns df)) (surviving df)))).
Proof.
  intros Hu Hwf.
  assert (Hb : Forall (fun i => i < length (surviving df))
                 (quicksort
                    (map (time_of (columns df)) (surviving df)))).
  { eapply Forall_impl; [|now apply argsort_bound].
    intros i Hi. now rewrite length_map in Hi. }
  rewrite <- (map_pick (time_of (columns df)) [] 0%Z _ _ Hb), map_map.
  unfold expected_table. cbn [records].
  apply map_ext_in. intros rec Hrec.
  eapply Permutation_in in Hrec; [|apply expected_perm].
  apply surviving_In in Hrec as (raw & Hraw & Hok & ->).
  apply time_of_kept; auto. now apply raw_length.
Qed.

(** ** Properties of a run *)

(** C1. When a run writes its output, the written table has as many rows as
    the unified table minus the rows that required-field filtering drops
    (the number the run prints when it is not zero), and every written row
    comes from a unified row whose [record_time] parsed as a timestamp and
    whose seven numeric fields parsed as numbers other than NaN; the written
    row holds exactly those parsed values. *)
Theorem output_rows_complete fs base_path out w w' r t :
  preprocess_vehicle_data fs base_path out w = (w', r) ->
  written w' = (out, t) :: written w ->
  let U := unified (loaded (find_files base_path fs)) in
  length (records t) = len U - rows_dropped U
  /\ (0 < rows_dropped U -> In (Dropped (rows_dropped U)) (stdout w'))
  /\ Forall (fun rec =>
       exists raw,
         In raw (map cells (rows U))
         /\ (exists ts,
               parse_datetime (value (columns U) "record_time" raw) = Some ts
               /\ value (schema t) "record_time" rec = Timestamp ts)
         /\ forall c, In c numeric_cols ->
              exists x,
                parse_numeric (value (columns U) c raw) = Some x
                /\ is_nan x = false
                /\ value (schema t) c rec = Num x)
       (records t).
Proof.
  intros Hrun Hw U.
  destruct (run_written _ _ _ _ _ _ _ Hrun Hw)
    as (_ & _ & Hu & _ & Ht & _ & Hout). fold U in Hu, Ht, Hout. subst t.
  assert (Hwf : well_formed U).
  { apply rename_well_formed, concat_well_formed. }
  split; [|split].
  - rewrite (Permutation_length (expected_perm U)). apply surviving_length.
  - intros Hpos. rewrite Hout.
    apply in_or_app. right. apply in_or_app. right.
    apply in_or_app. left. unfold preprocess.success_log.
    apply in_or_app. right. apply in_or_app. left.
    unfold dropped_line. apply Nat.ltb_lt in Hpos. rewrite Hpos. now left.
  - apply Forall_forall. intros rec Hrec.
    eapply Permutation_in in Hrec; [|apply expected_perm].
    apply surviving_In in Hrec as (raw & Hraw & Hok & ->).
    exists raw. split; [assumption|].
    apply kept_values; auto. now apply raw_length.
Qed.

(** C2. When a run writes its output, the [record_time] column of the
    written table holds timestamps only, and they never decrease from one
    row to the next. *)
Theorem output_times_sorted fs base_path out w w' r t :
  preprocess_vehicle_data fs base_path out w = (w', r) ->
  written w' = (out, t) :: written w ->
  exists times,
    record_times t = map Timestamp times /\ StronglySorted Z.le times.
Proof.
  intros Hrun Hw.
  destruct (run_written _ _ _ _ _ _ _ Hrun Hw)
    as (_ & _ & Hu & _ & Ht & _). subst t.
  eexists. split.
  - unfold record_times. cbn [schema]. apply expected_times; [assumption|].
    apply rename_well_formed, concat_well_formed.
  - apply quicksort_sorts.
Qed.

Lemma dict_get_none d k : ~ In k (keys d) -> dict_get d k = None.
Proof.
  induction d as [|[k' v] d IH]; simpl; [reflexivity|]. intros H.
  destruct (String.eqb_spec k' k) as [->|Hne]; [exfalso; auto|].
  apply IH. auto.
Qed.

Lemma map_value_unmapped d v :
  ~ In v (map Str (keys d)) -> pd.map_value d v = NA.
Proof.
  intros H. destruct v as [|s| | | |]; try reflexivity. simpl.
  rewrite dict_get_none; [reflexivity|].
  intros Hin. apply H. now apply in_map.
Qed.

(** C3, as the code has it. A raw [vehicle_state] or [charge_state] value
    that is not a key of the lookup table is translated to the missing
    value (NaN), the same for every such value; the token for "vehicle
    started" is translated to the label "Vehicle Start"; and translating a
    column that exists never raises, whatever its values. *)
Theorem unmapped_state_is_missing :
  (forall d v,
     In d [vehicle_state_map; charge_state_map] ->
     ~ In v (map Str (keys d)) ->
     pd.map_value d v = NA /\ isna (pd.map_value d v) = true)
  /\ pd.map_value vehicle_state_map (Str "车辆启动") = Str "Vehicle Start"
  /\ (forall df c d i,
        positions c (columns df) = [i] ->
        translate c d df
        = Ok (pd.setitem df i (map (pd.map_value d) (pd.series df i)))).
Proof.
  split; [|split].
  - intros d v _ H. now rewrite (map_value_unmapped d v H).
  - reflexivity.
  - intros df c d i H. unfold translate, pd.getitem. now rewrite H.
Qed.

(** C5, as the code has it. When a run writes its output, the written file
    has every column of the unified table under its canonical name: each of
    the ten canonical columns exactly once, and with them every other column
    a source file brought along. *)
Theorem output_columns fs base_path out w w' r t :
  preprocess_vehicle_data fs base_path out w = (w', r) ->
  written w' = (out, t) :: written w ->
  schema t
  = map (pd.rename_label cleaned_columns)
        (pd.union_columns (loaded (find_files base_path fs)))
  /\ forall c, In c canonical_columns -> has_once (schema t) c = true.
Proof.
  intros Hrun Hw.
  destruct (run_written _ _ _ _ _ _ _ Hrun Hw)
    as (_ & _ & Hu & _ & Ht & _). subst t.
  split; [reflexivity|].
  intros c Hc. cbn [expected_table schema].
  apply usable_In; [assumption|].
  unfold canonical_columns, numeric_cols in *. simpl in *. tauto.
Qed.

(** C6. A run that finds no [.xlsx] file prints the no-files diagnostic and
    stops; a run that finds files of which none loads prints one warning
    per file and the no-dataframes diagnostic and stops. In both cases
    nothing of a later stage is printed and no file is written. *)
Theorem halts_without_data fs base_path out w :
  loaded (find_files base_path fs) = [] ->
  preprocess_vehicle_data fs base_path out w
  = (mkWorld
       (stdout w
        ++ match find_files base_path fs with
           | [] => [Searching base_path; ErrorNoFiles]
           | _ :: _ =>
               found_log base_path (find_files base_path fs)
               ++ [ErrorNoFrames]
           end)
       (written w),
     Ok tt).
Proof.
  intros H.
  destruct (find_files base_path fs) as [|p ps] eqn:E.
  - now apply preprocess_no_files.
  - rewrite preprocess_read by congruence. cbv zeta.
    rewrite E, H. cbn [stdout]. now rewrite <- app_assoc.
Qed.

Lemma warnings_In all_files p e :
  In p all_files -> read_excel p = inl e ->
  In (WarningRead p e) (warnings all_files).
Proof.
  induction all_files as [|q qs IH]; simpl; [contradiction|].
  intros [->|Hin] He.
  - rewrite He. now left.
  - destruct (read_excel q); [right|]; auto.
Qed.

Lemma loaded_In all_files p df :
  In p all_files -> read_excel p = inr df -> In df (loaded all_files).
Proof.
  induction all_files as [|q qs IH]; simpl; [contradiction|].
  intros [->|Hin] He.
  - rewrite He. now left.
  - destruct (read_excel q); [|right]; auto.
Qed.

Lemma loaded_or_warned all_files :
  length (loaded all_files) + length (warnings all_files) = length all_files.
Proof.
  induction all_files as [|q qs IH]; simpl; [reflexivity|].
  destruct (read_excel q); simpl; lia.
Qed.

Lemma len_unified_single df : len (unified [df]) = len df.
Proof.
  unfold unified, len, pd.rename, pd.concat. cbn [rows flat_map].
  rewrite length_relabel, app_nil_r. unfold pd.reindexed.
  now rewrite length_map.
Qed.

(** C7. Reading never aborts the run: a file whose load fails is reported
    with its path and the cause and is left out, every file that loads
    contributes its frame, and the run goes on with those. In particular,
    when exactly one of the discovered files loads, with three rows none of
    which is dropped, and the writer does not fail, the run completes with a
    written table of exactly three rows and the warning on record. *)
Theorem load_failures_are_skipped :
  (forall all_files w,
     read_files all_files w
     = (mkWorld (stdout w ++ warnings all_files) (written w),
        Ok (loaded all_files)))
  /\ (forall all_files p e,
        In p all_files -> read_excel p = inl e ->
        In (WarningRead p e) (warnings all_files))
  /\ (forall all_files p df,
        In p all_files -> read_excel p = inr df -> In df (loaded all_files))
  /\ (forall all_files,
        length (loaded all_files) + length (warnings all_files)
        = length all_files)
  /\ (forall fs base_path out w df q e,
        loaded (find_files base_path fs) = [df] ->
        In q (find_files base_path fs) -> read_excel q = inl e ->
        usable (columns (unified [df])) = true ->
        rows_dropped (unified [df]) = 0 -> len df = 3 ->
        write_error out (expected_table (unified [df])) = None ->
        exists w' t,
          preprocess_vehicle_data fs base_path out w = (w', Ok tt)
          /\ written w' = (out, t) :: written w
          /\ length (records t) = 3
          /\ In (WarningRead q e) (stdout w')).
Proof.
  split; [exact read_files_spec|].
  split; [exact warnings_In|].
  split; [exact loaded_In|].
  split; [exact loaded_or_warned|].
  intros fs base_path out w df q e Hl Hq He Hu Hd Hn Hw.
  assert (Hne : find_files base_path fs <> []).
  { intros E. rewrite E in Hq. contradiction. }
  rewrite preprocess_read by assumption. cbv zeta. rewrite Hl.
  rewrite process_success by assumption. cbv zeta. rewrite Hw.
  eexists _, _. split; [reflexivity|]. cbn [written stdout].
  split; [reflexivity|]. split.
  - rewrite (Permutation_length (expected_perm _)), surviving_length.
    rewrite Hd, len_unified_single. lia.
  - apply in_or_app. left. apply in_or_app. right.
    unfold found_log. apply in_or_app. right. now apply warnings_In.
Qed.

Lemma process_no_vehicle_state df_list out w :
  ~ In "vehicle_state" (columns (unified df_list)) ->
  process df_list out w
  = (mkWorld (stdout w ++ [Concatenating; InitialRecords (len (unified df_list));
                           Translating])
             (written w),
     Raise (KeyError "vehicle_state")).
Proof.
  intros H. apply positions_nil in H.
  unfold preprocess.process.
  do 3 printed.
  rewrite bind_lift. unfold translate at 1, pd.getitem.
  fold (unified df_list). rewrite H. cbn [rbind].
  now rewrite <- !app_assoc.
Qed.

Lemma loaded_files_nonempty all_files : loaded all_files <> [] -> all_files <> [].
Proof. intros H E. apply H. now rewrite E. Qed.

(** C9. When files load but the unified table lacks one of the ten columns
    the code reads, the run ends in an uncaught [KeyError] (or, if another
    of those columns is duplicated, a [TypeError]) and writes no file; a
    table without [vehicle_state] fails at the first lookup of step 5. *)
Theorem missing_column_aborts fs base_path out w c :
  let all_files := find_files base_path fs in
  let U := unified (loaded all_files) in
  loaded all_files <> [] ->
  In c ("vehicle_state" :: "charge_state" :: "record_time" :: numeric_cols) ->
  ~ In c (columns U) ->
  (exists w' e c',
     preprocess_vehicle_data fs base_path out w = (w', Raise e)
     /\ written w' = written w
     /\ In c' ("vehicle_state" :: "charge_state" :: "record_time"
               :: numeric_cols)
     /\ column_error c' e)
  /\ (c = "vehicle_state" ->
      preprocess_vehicle_data fs base_path out w
      = (mkWorld (stdout w ++ found_log base_path all_files
                  ++ [Concatenating; InitialRecords (len U); Translating])
                 (written w),
         Raise (KeyError "vehicle_state"))).
Proof.
  intros all_files U Hl Hc Hn.
  assert (Hne : all_files <> []) by now apply loaded_files_nonempty.
  assert (Hu : usable (columns U) = false).
  { destruct (usable (columns U)) eqn:E; [|reflexivity].
    exfalso. apply Hn. now apply has_once_In, usable_In. }
  unfold all_files in Hne.
  rewrite preprocess_read by assumption. cbv zeta.
  fold all_files.
  destruct (loaded all_files) as [|df dfs] eqn:El; [congruence|].
  fold U. split.
  - destruct (process_failure (df :: dfs) out
                (mkWorld (stdout w ++ found_log base_path all_files)
                         (written w)) Hu)
      as (w1 & e & c' & Hp & Hw1 & Hc' & He).
    exists w1, e, c'. auto.
  - intros ->. rewrite process_no_vehicle_state by assumption.
    cbn [stdout written]. fold U. now rewrite <- app_assoc.
Qed.

(** C10. Required-field filtering looks at [record_time] and the seven
    numeric columns only: two rows that agree there are kept or dropped
    alike. So when a run writes its output, every unified row whose eight
    required fields parse is in the written table, whatever its
    [vehicle_state] and [charge_state]; there its two states are the
    translations of the raw ones, hence missing when unmapped. *)
Theorem states_do_not_filter :
  (forall cols r r',
     usable cols = true ->
     (forall c, In c ("record_time" :: numeric_cols) ->
                value cols c (cells r) = value cols c (cells r')) ->
     pd.complete (pd.subset_positions ("record_time" :: numeric_cols) cols) r
     = pd.complete (pd.subset_positions ("record_time" :: numeric_cols) cols) r')
  /\ (forall fs base_path out w w' r t,
        preprocess_vehicle_data fs base_path out w = (w', r) ->
        written w' = (out, t) :: written w ->
        let U := unified (loaded (find_files base_path fs)) in
        forall raw,
          In raw (map cells (rows U)) ->
          required_ok (columns U) raw = true ->
          let rec := normalize_record (columns U) raw in
          In rec (records t)
          /\ value (schema t) "vehicle_state" rec
             = pd.map_value vehicle_state_map
                 (value (columns U) "vehicle_state" raw)
          /\ value (schema t) "charge_state" rec
             = pd.map_value charge_state_map
                 (value (columns U) "charge_state" raw)).
Proof.
  split.
  - intros cols r r' Hu H.
    rewrite !complete_labels by now apply usable_required.
    apply forallb_ext_in. intros c Hc. now rewrite H.
  - intros fs base_path out w w' r t Hrun Hw U raw Hraw Hok.
    destruct (run_written _ _ _ _ _ _ _ Hrun Hw)
      as (_ & _ & Hu & _ & Ht & _). fold U in Hu, Ht. subst t.
    assert (Hwf : well_formed U).
    { apply rename_well_formed, concat_well_formed. }
    cbv zeta. split; [|split].
    + eapply Permutation_in; [symmetry; apply expected_perm|].
      apply surviving_In. eauto.
    + cbn [expected_table schema]. unfold preprocess.normalize_record.
      rewrite value_by_label; [reflexivity|now apply raw_length|].
      apply has_once_In, usable_In; simpl; auto.
    + cbn [expected_table schema]. unfold preprocess.normalize_record.
      rewrite value_by_label; [reflexivity|now apply raw_length|].
      apply has_once_In, usable_In; simpl; auto.
Qed.

End Run.

(** ** What the order of the output depends on *)

Lemma sorted_perm_eq (l1 l2 : list Z) :
  StronglySorted Z.le l1 -> StronglySorted Z.le l2 -> Permutation l1 l2 ->
  l1 = l2.
Proof.
  revert l2; induction l1 as [|a l1 IH]; intros l2 S1 S2 P.
  - apply Permutation_nil in P. now subst.
  - destruct l2 as [|b l2].
    + symmetry in P. now apply Permutation_nil in P.
    + apply StronglySorted_inv in S1 as [S1 F1].
      apply StronglySorted_inv in S2 as [S2 F2].
      rewrite Forall_forall in F1, F2.
      assert (Hab : a = b).
      { assert (Ha : In a (b :: l2)).
        { eapply Permutation_in; [exact P|now left]. }
        assert (Hb : In b (a :: l1)).
        { eapply Permutation_in; [symmetry; exact P|now left]. }
        destruct Ha as [Ha|Ha]; [congruence|].
        destruct Hb as [Hb|Hb]; [congruence|].
        specialize (F1 _ Hb). specialize (F2 _ Ha). lia. }
      subst b. f_equal. apply IH; auto.
      eapply Permutation_cons_inv; eassumption.
Qed.

Lemma map_eq_inj {A B} (f : A -> B) l1 l2 :
  (forall x y, In x l1 -> In y l2 -> f x = f y -> x = y) ->
  map f l1 = map f l2 -> l1 = l2.
Proof.
  revert l2; induction l1 as [|x l1 IH]; intros [|y l2] Hinj H;
    simpl in *; try discriminate; [reflexivity|].
  injection H as Hxy H. f_equal.
  - apply Hinj; auto.
  - apply IH; auto.
Qed.

(** On distinct keys every sorting algorithm returns the same indexer. *)
Lemma argsort_unique (k1 k2 : pd.sort_kind) ks :
  pd.sorts k1 -> pd.sorts k2 -> NoDup ks -> k1 ks = k2 ks.
Proof.
  intros H1 H2 Hnd.
  apply (map_eq_inj (fun i => nth i ks 0%Z)).
  - intros x y Hx Hy Hxy.
    pose proof (argsort_bound k1 ks H1) as B1.
    pose proof (argsort_bound k2 ks H2) as B2.
    rewrite Forall_forall in B1, B2.
    eapply (proj1 (NoDup_nth ks 0%Z)); eauto.
  - apply sorted_perm_eq; try apply H1; try apply H2.
    apply Permutation_map.
    rewrite (proj1 (H1 ks)). symmetry. apply H2.
Qed.

(** C4, as the code has it. The sort of step 8 returns the surviving rows
    as a permutation in which [record_time] never decreases. The code asks
    [sort_values] for no particular algorithm, so where two rows have the
    same [record_time] their order is the algorithm's choice, and it need
    not be the order they had. The sort is a function of the table: a run
    repeated on unchanged input, from whatever was printed and written
    before, writes the same table and ends the same way. When the surviving
    rows all have different times the outcome is the same under every
    sorting algorithm as well. *)
Theorem sort_orders_by_time_only read_excel parse_datetime parse_numeric
    quicksort write_error fs base_path out w w' r t :
  pd.sorts quicksort ->
  preprocess_vehicle_data read_excel parse_datetime parse_numeric quicksort
    write_error fs base_path out w = (w', r) ->
  written w' = (out, t) :: written w ->
  let U := unified (loaded read_excel (find_files base_path fs)) in
  let kept := surviving parse_datetime parse_numeric U in
  Permutation (records t) kept
  /\ (exists times,
        record_times t = map Timestamp times /\ StronglySorted Z.le times)
  /\ (forall w0,
        exists w0',
          preprocess_vehicle_data read_excel parse_datetime parse_numeric
            quicksort write_error fs base_path out w0 = (w0', r)
          /\ written w0' = (out, t) :: written w0)
  /\ (NoDup (map (time_of (columns U)) kept) ->
      forall kind,
        pd.sorts kind ->
        preprocess_vehicle_data read_excel parse_datetime parse_numeric kind
          write_error fs base_path out w = (w', r)).
Proof.
  intros Hq Hrun Hw U kept.
  destruct (run_written _ _ _ _ _ Hq _ _ _ _ _ _ _ Hrun Hw)
    as (Hne & Hl & Hu & Hwe & Ht & Hr & _).
  fold U in Hu, Ht.
  assert (Hwf : well_formed U).
  { apply rename_well_formed, concat_well_formed. }
  split; [|split; [|split]].
  - subst t. now apply expected_perm.
  - subst t. eexists. split.
    + unfold record_times. cbn [schema]. now apply expected_times.
    + apply Hq.
  - intros w0. rewrite preprocess_read by assumption. cbv zeta.
    destruct (loaded read_excel (find_files base_path fs)) as [|df dfs] eqn:El;
      [congruence|].
    fold U. rewrite process_success by assumption. cbv zeta. fold U.
    rewrite <- Ht, Hwe, Hr. eexists. split; reflexivity.
  - intros Hnd kind Hk. rewrite <- Hrun.
    rewrite !preprocess_read by assumption. cbv zeta.
    destruct (loaded read_excel (find_files base_path fs)) as [|df dfs] eqn:El;
      [reflexivity|].
    fold U. rewrite !process_success by assumption. cbv zeta. fold U.
    replace (expected_table parse_datetime parse_numeric kind U)
      with (expected_table parse_datetime parse_numeric quicksort U);
      [reflexivity|].
    unfold expected_table. fold kept.
    now rewrite (argsort_unique quicksort kind _ Hq Hk Hnd).
Qed.

(** ** The properties on the sample data *)

Lemma output_rows_complete_witness :
  length (records (Sample.table Kinds.stable Sample.ties)) = 5 - 2.
Proof.
  assert (Hw : written (fst (Sample.run Kinds.stable Sample.ties))
               = ("processed.parquet", Sample.table Kinds.stable Sample.ties)
                 :: written Sample.start)
    by (vm_compute; reflexivity).
  destruct (output_rows_complete Sample.read_excel Sample.parse_datetime
              Sample.parse_numeric Kinds.stable Sample.writable stable_sorts
              Sample.ties "./Data" "processed.parquet" Sample.start _ _ _
              (surjective_pairing _) Hw) as [H _].
  rewrite H. vm_compute. reflexivity.
Defined.

Lemma output_times_sorted_witness :
  exists times,
    record_times (Sample.table Kinds.reversing Sample.ties)
    = map Timestamp times
    /\ StronglySorted Z.le times.
Proof.
  assert (Hw : written (fst (Sample.run Kinds.reversing Sample.ties))
               = ("processed.parquet", Sample.table Kinds.reversing Sample.ties)
                 :: written Sample.start)
    by (vm_compute; reflexivity).
  exact (output_times_sorted Sample.read_excel Sample.parse_datetime
           Sample.parse_numeric Kinds.reversing Sample.writable reversing_sorts
           Sample.ties "./Data" "processed.parquet" Sample.start _ _ _
           (surjective_pairing _) Hw).
Defined.

Lemma unmapped_state_is_missing_witness :
  pd.map_value vehicle_state_map (Str "行驶") = NA
  /\ pd.map_value charge_state_map (Int 3) = NA
  /\ translate "vehicle_state" vehicle_state_map Sample.day1
     = Ok (pd.setitem Sample.day1 1
             (map (pd.map_value vehicle_state_map) (pd.series Sample.day1 1))).
Proof.
  destruct unmapped_state_is_missing as (Hmiss & _ & Hcol).
  split; [|split].
  - apply (Hmiss vehicle_state_map (Str "行驶")).
    + simpl. auto.
    + simpl. intros [H|[H|[]]]; discriminate.
  - apply (Hmiss charge_state_map (Int 3)).
    + simpl. auto.
    + simpl. intros [H|[H|[H|[]]]]; discriminate.
  - apply Hcol. reflexivity.
Defined.

(** The translation of an unmapped value is the missing value, not a label
    "unknown": a vehicle state that is no key of the table, and the file the
    sample run writes for it. *)
Lemma unknown_label_not_produced :
  ~ In (Str "行驶") (map Str (keys vehicle_state_map))
  /\ pd.map_value vehicle_state_map (Str "行驶") <> Str "unknown"
  /\ map (value (schema (Sample.table Kinds.stable Sample.two_files))
            "vehicle_state")
         (records (Sample.table Kinds.stable Sample.two_files))
     = [Str "Engine Off"; NA; Str "Vehicle Start"].
Proof.
  split; [|split].
  - simpl. intros [H|[H|[]]]; discriminate.
  - simpl. discriminate.
  - vm_compute. reflexivity.
Qed.

Lemma sort_orders_by_time_only_witness :
  Permutation (records Ties.table)
    (surviving Sample.parse_datetime Sample.parse_numeric
       (unified (loaded Ties.read_excel (find_files "./Data" Ties.files))))
  /\ (exists times,
        record_times Ties.table = map Timestamp times
        /\ StronglySorted Z.le times)
  /\ (exists again,
        preprocess_vehicle_data Ties.read_excel Sample.parse_datetime
          Sample.parse_numeric Numpy.quicksort Sample.writable Ties.files
          "./Data" "processed.parquet" (fst Ties.run)
        = (again, Ok tt)
        /\ written again
           = [("processed.parquet", Ties.table);
              ("processed.parquet", Ties.table)])
  /\ preprocess_vehicle_data Sample.read_excel Sample.parse_datetime
       Sample.parse_numeric Numpy.quicksort Sample.writable Sample.two_files
       "./Data" "processed.parquet" Sample.start
     = Sample.run Kinds.stable Sample.two_files.
Proof.
  assert (E1 : preprocess_vehicle_data Ties.read_excel Sample.parse_datetime
                 Sample.parse_numeric (Kinds.checked Numpy.quicksort)
                 Sample.writable Ties.files "./Data" "processed.parquet"
                 Sample.start
               = (fst Ties.run, snd Ties.run))
    by (vm_compute; reflexivity).
  assert (Hw : written (fst Ties.run)
               = ("processed.parquet", Ties.table) :: written Sample.start)
    by (vm_compute; reflexivity).
  assert (Hr : snd Ties.run = Ok tt) by (vm_compute; reflexivity).
  pose proof (sort_orders_by_time_only Ties.read_excel Sample.parse_datetime
                Sample.parse_numeric (Kinds.checked Numpy.quicksort)
                Sample.writable Ties.files "./Data" "processed.parquet"
                Sample.start (fst Ties.run) (snd Ties.run) Ties.table
                (checked_sorts Numpy.quicksort) E1 Hw) as H.
  cbv zeta in H. destruct H as (Hperm & Hsorted & Hagain & _).
  split; [exact Hperm|]. split; [exact Hsorted|]. split.
  - destruct (Hagain (fst Ties.run)) as (again & H1 & H2).
    exists again. rewrite Hr in H1. split.
    + rewrite <- H1. vm_compute. reflexivity.
    + rewrite H2, Hw. reflexivity.
  - assert (Hw2 : written (fst (Sample.run Kinds.stable Sample.two_files))
                  = ("processed.parquet",
                     Sample.table Kinds.stable Sample.two_files)
                    :: written Sample.start)
      by (vm_compute; reflexivity).
    pose proof (sort_orders_by_time_only Sample.read_excel
                  Sample.parse_datetime Sample.parse_numeric Kinds.stable
                  Sample.writable Sample.two_files "./Data"
                  "processed.parquet" Sample.start
                  (fst (Sample.run Kinds.stable Sample.two_files))
                  (snd (Sample.run Kinds.stable Sample.two_files))
                  (Sample.table Kinds.stable Sample.two_files)
                  stable_sorts (surjective_pairing _) Hw2) as H.
    cbv zeta in H. destruct H as (_ & _ & _ & Hsame).
    rewrite (surjective_pairing (Sample.run Kinds.stable Sample.two_files)).
    rewrite <- (Hsame ltac:(vm_compute; repeat constructor; simpl;
                            intuition discriminate)
                  (Kinds.checked Numpy.quicksort)
                  (checked_sorts Numpy.quicksort)).
    vm_compute. reflexivity.
Defined.

(** The sort of step 8 does not keep rows with equal [record_time] in their
    original order. The file has eighteen rows with the same time, with
    states of charge 0 to 17 in this order, and all of them are kept.
    numpy's quicksort partitions the eighteen positions once and swaps
    equal keys across the pivot: the run writes the row with state of
    charge 15 second and the row with state of charge 1 sixteenth. *)
Lemma sort_not_stable :
  let U := unified (loaded Ties.read_excel (find_files "./Data" Ties.files)) in
  let kept := surviving Sample.parse_datetime Sample.parse_numeric U in
  map (time_of (columns U)) kept = repeat 1000%Z 18
  /\ map (value (columns U) "soc") kept
     = map Ties.soc [0; 1; 2; 3; 4; 5; 6; 7; 8; 9; 10; 11; 12; 13; 14; 15; 16;
                     17]%Z
  /\ Numpy.quicksort (map (time_of (columns U)) kept)
     = [0; 15; 14; 13; 12; 11; 10; 9; 8; 7; 6; 5; 4; 3; 2; 1; 16; 17]
  /\ written (fst Ties.run) = [("processed.parquet", Ties.table)]
  /\ record_times Ties.table = repeat (Timestamp 1000) 18
  /\ map (value (schema Ties.table) "soc") (records Ties.table)
     = map Ties.soc [0; 15; 14; 13; 12; 11; 10; 9; 8; 7; 6; 5; 4; 3; 2; 1; 16;
                     17]%Z
  /\ ties_ascending (map (time_of (columns U)) kept)
       (Numpy.quicksort (map (time_of (columns U)) kept)) = false.
Proof.
  cbv zeta. repeat split; vm_compute; reflexivity.
Qed.

Lemma output_columns_witness :
  schema (Sample.table Kinds.stable Sample.extra_column)
  = map (pd.rename_label cleaned_columns)
        (pd.union_columns [Sample.day1; Sample.day3])
  /\ has_once (schema (Sample.table Kinds.stable Sample.extra_column)) "soc"
     = true.
Proof.
  assert (Hw : written (fst (Sample.run Kinds.stable Sample.extra_column))
               = ("processed.parquet",
                  Sample.table Kinds.stable Sample.extra_column)
                 :: written Sample.start)
    by (vm_compute; reflexivity).
  destruct (output_columns Sample.read_excel Sample.parse_datetime
              Sample.parse_numeric Kinds.stable Sample.writable stable_sorts
              Sample.extra_column "./Data" "processed.parquet" Sample.start
              _ _ _ (surjective_pairing _) Hw) as [Hs Hc].
  split.
  - exact Hs.
  - apply Hc. simpl. tauto.
Defined.

(** The written file has more than the ten canonical columns when a source
    file has a column the rename table does not know: the sample run on a
    file with a mileage column writes eleven columns. *)
Lemma extra_column_is_written :
  exists t,
    written (fst (Sample.run Kinds.stable Sample.extra_column))
    = [("processed.parquet", t)]
    /\ schema t = canonical_columns ++ ["mileage(km)"]
    /\ schema t <> canonical_columns.
Proof.
  exists (Sample.table Kinds.stable Sample.extra_column).
  split; [vm_compute; reflexivity|].
  split; [vm_compute; reflexivity|].
  vm_compute. discriminate.
Qed.

Lemma halts_without_data_witness :
  Sample.run Kinds.stable Sample.no_files
  = (mkWorld [Searching "./Data"; ErrorNoFiles] [], Ok tt)
  /\ Sample.run Kinds.stable Sample.broken_files
     = (mkWorld [Searching "./Data"; Found 2;
                 WarningRead "./Data/a.xlsx" "File is not a zip file";
                 WarningRead "./Data/old/broken.xlsx" "File is not a zip file";
                 ErrorNoFrames] [],
        Ok tt).
Proof.
  split.
  - unfold Sample.run.
    rewrite (halts_without_data Sample.read_excel Sample.parse_datetime
               Sample.parse_numeric Kinds.stable Sample.writable
               Sample.no_files "./Data" "processed.parquet" Sample.start)
      by (vm_compute; reflexivity).
    vm_compute. reflexivity.
  - unfold Sample.run.
    rewrite (halts_without_data Sample.read_excel Sample.parse_datetime
               Sample.parse_numeric Kinds.stable Sample.writable
               Sample.broken_files "./Data" "processed.parquet" Sample.start)
      by (vm_compute; reflexivity).
    vm_compute. reflexivity.
Defined.

Lemma load_failures_are_skipped_witness :
  exists w' t,
    Sample.run Kinds.stable Sample.two_files = (w', Ok tt)
    /\ written w' = ("processed.parquet", t) :: written Sample.start
    /\ length (records t) = 3
    /\ In (WarningRead "./Data/old/broken.xlsx" "File is not a zip file")
          (stdout w').
Proof.
  destruct (load_failures_are_skipped Sample.read_excel Sample.parse_datetime
              Sample.parse_numeric Kinds.stable Sample.writable stable_sorts)
    as (_ & _ & _ & _ & H).
  apply (H Sample.two_files "./Data" "processed.parquet" Sample.start
           Sample.day1 "./Data/old/broken.xlsx" "File is not a zip file").
  - vm_compute. reflexivity.
  - vm_compute. right. left. reflexivity.
  - reflexivity.
  - vm_compute. reflexivity.
  - vm_compute. reflexivity.
  - reflexivity.
  - reflexivity.
Defined.

(** With [errors='raise'] a value the parser rejects raises; the code
    passes [errors='coerce']. *)
Example raise_mode_raises :
  to_numeric Sample.parse_numeric pd.errors_raise [Int 350; Str "--"]
  = Raise (ValueError "Unable to parse").
Proof. reflexivity. Qed.

Lemma missing_column_aborts_witness :
  Sample.run Kinds.stable Sample.missing_column
  = (mkWorld [Searching "./Data"; Found 1; Concatenating; InitialRecords 1;
              Translating] [],
     Raise (KeyError "vehicle_state")).
Proof.
  destruct (missing_column_aborts Sample.read_excel Sample.parse_datetime
              Sample.parse_numeric Kinds.stable Sample.writable
              Sample.missing_column "./Data" "processed.parquet" Sample.start
              "vehicle_state") as [_ H].
  - vm_compute. discriminate.
  - simpl. auto.
  - vm_compute. intuition discriminate.
  - unfold Sample.run. rewrite H by reflexivity. vm_compute. reflexivity.
Defined.

Lemma states_do_not_filter_witness :
  In (normalize_record Sample.parse_datetime Sample.parse_numeric
        (columns (Sample.unified_table Sample.two_files)) Sample.driving)
     (records (Sample.table Kinds.stable Sample.two_files))
  /\ value (schema (Sample.table Kinds.stable Sample.two_files))
       "vehicle_state"
       (normalize_record Sample.parse_datetime Sample.parse_numeric
          (columns (Sample.unified_table Sample.two_files)) Sample.driving)
     = NA.
Proof.
  assert (Hw : written (fst (Sample.run Kinds.stable Sample.two_files))
               = ("processed.parquet",
                  Sample.table Kinds.stable Sample.two_files)
                 :: written Sample.start)
    by (vm_compute; reflexivity).
  destruct (states_do_not_filter Sample.read_excel Sample.parse_datetime
              Sample.parse_numeric Kinds.stable Sample.writable stable_sorts)
    as [_ H].
  destruct (H Sample.two_files "./Data" "processed.parquet" Sample.start
              _ _ _ (surjective_pairing _) Hw Sample.driving)
    as (Hin & Hstate & _).
  - vm_compute. right. right. left. reflexivity.
  - vm_compute. reflexivity.
  - split; [exact Hin|].
    etransitivity; [exact Hstate|]. vm_compute. reflexivity.
Defined.

(** ** More about a run: how it ends *)

Lemma first_bad_In cols labels c :
  first_bad cols labels = Some c -> In c labels /\ has_once cols c = false.
Proof.
  induction labels as [|c' labels IH]; simpl; [discriminate|].
  destruct (has_once cols c') eqn:E.
  - intros H. destruct (IH H). auto.
  - intros H. injection H as <-. auto.
Qed.

Lemma first_bad_none cols labels :
  first_bad cols labels = None <-> forallb (has_once cols) labels = true.
Proof.
  induction labels as [|c' labels IH]; simpl; [tauto|].
  destruct (has_once cols c'); simpl; [exact IH|].
  split; discriminate.
Qed.

Lemma usable_first_bad cols :
  usable cols = true <-> first_bad cols lookups = None.
Proof. symmetry. apply first_bad_none. Qed.

Lemma stage_bad c f df :
  has_once (columns df) c = false ->
  stage c f df = Raise (lookup_error (columns df) c).
Proof.
  unfold has_once, stage, pd.getitem, lookup_error.
  destruct (positions c (columns df)) as [|i [|j l]]; try discriminate;
    reflexivity.
Qed.

Lemma stage_good c f df :
  has_once (columns df) c = true ->
  exists df', stage c f df = Ok df' /\ columns df' = columns df.
Proof.
  intros H. apply has_once_positions in H as [i Hi].
  unfold stage, pd.getitem. rewrite Hi. cbn [rbind]. eauto.
Qed.

(** A chain of column rewrites fails at the first label that does not name
    exactly one column, with the exception of that lookup. *)
Lemma run_stages_first_bad st df c :
  first_bad (columns df) (map fst st) = Some c ->
  run_stages st df = Raise (lookup_error (columns df) c).
Proof.
  revert df; induction st as [|[c' f] st IH]; intros df; simpl; [discriminate|].
  destruct (has_once (columns df) c') eqn:E.
  - intros H. destruct (stage_good c' f df E) as (df' & -> & Hc).
    cbn [rbind]. rewrite <- Hc in H. rewrite (IH _ H). now rewrite Hc.
  - intros H. injection H as <-. now rewrite stage_bad.
Qed.

Section Outcomes.

Variable read_excel : string -> string + DataFrame.
Variable parse_datetime : cell -> option Z.
Variable parse_numeric : cell -> option spec_float.
Variable quicksort : pd.sort_kind.
Variable write_error : string -> parquet -> option string.

Hypothesis quicksort_sorts : pd.sorts quicksort.

Local Abbreviation surviving := (surviving parse_datetime parse_numeric).
Local Abbreviation expected_table :=
  (expected_table parse_datetime parse_numeric quicksort).
Local Abbreviation found_log := (found_log read_excel).
Local Abbreviation success_log := (success_log parse_datetime parse_numeric).
Local Abbreviation normalize_record := (normalize_record parse_datetime parse_numeric).
Local Abbreviation normalize_value := (normalize_value parse_datetime parse_numeric).
Local Abbreviation required_ok := (required_ok parse_datetime parse_numeric).
Local Abbreviation rows_dropped := (rows_dropped parse_datetime parse_numeric).
Local Abbreviation stages := (stages parse_datetime parse_numeric).
Local Abbreviation process := (process parse_datetime parse_numeric quicksort write_error).
Local Abbreviation preprocess_vehicle_data :=
  (preprocess_vehicle_data read_excel parse_datetime parse_numeric quicksort
     write_error).
Local Abbreviation main :=
  (main read_excel parse_datetime parse_numeric quicksort write_error).
Local Abbreviation loaded := (loaded read_excel).
Local Abbreviation warnings := (warnings read_excel).

Ltac printed :=
  rewrite bind_print; cbv beta zeta; cbn [stdout written].

Lemma lookups_stages : map fst stages = lookups.
Proof. reflexivity. Qed.

(** Steps 3 to 9 when a column the code reads is absent or duplicated: the
    run ends at the first such lookup. *)
Lemma process_raise df_list out w c :
  first_bad (columns (unified df_list)) lookups = Some c ->
  process df_list out w
  = (mkWorld (stdout w ++ failure_log (unified df_list) c) (written w),
     Raise (lookup_error (columns (unified df_list)) c)).
Proof.
  set (U := unified df_list). intros Hc.
  unfold preprocess.process. do 3 printed.
  change (pd.rename cleaned_columns (pd.concat df_list)) with U.
  change (len (pd.concat df_list)) with (len U).
  unfold failure_log. cbn [lookups first_bad] in Hc.
  rewrite bind_lift, translate_stage.
  destruct (has_once (columns U) "vehicle_state") eqn:E1.
  2:{ injection Hc as <-. rewrite stage_bad by assumption.
      cbn. now rewrite <- !app_assoc. }
  destruct (stage_good "vehicle_state" (pd.map_value vehicle_state_map) U E1)
    as (d1 & -> & C1).
  rewrite bind_lift, translate_stage.
  destruct (has_once (columns U) "charge_state") eqn:E2.
  2:{ injection Hc as <-. rewrite stage_bad by now rewrite C1.
      rewrite C1. cbn. now rewrite <- !app_assoc. }
  destruct (stage_good "charge_state" (pd.map_value charge_state_map) d1)
    as (d2 & -> & C2); [now rewrite C1|].
  printed. rewrite bind_lift. unfold to_datetime. rewrite coerce_stage.
  assert (C2' : columns d2 = columns U) by congruence.
  destruct (has_once (columns U) "record_time") eqn:E3.
  2:{ injection Hc as <-. rewrite stage_bad by now rewrite C2'.
      rewrite C2'. cbn. now rewrite <- !app_assoc. }
  destruct (stage_good "record_time" (coerce_cell parse_datetime Timestamp) d2)
    as (d3 & -> & C3); [now rewrite C2'|].
  assert (C3' : columns d3 = columns U) by congruence.
  rewrite bind_lift, coerce_numeric_stages.
  rewrite (run_stages_first_bad _ d3 c).
  - rewrite C3'.
    replace (String.eqb c "vehicle_state" || String.eqb c "charge_state")
      with false.
    + now rewrite <- !app_assoc.
    + apply first_bad_In in Hc as [Hin _]. unfold numeric_cols in Hin.
      simpl in Hin.
      repeat (destruct Hin as [<-|Hin]; [reflexivity|]). contradiction.
  - rewrite C3', map_map. cbn [fst]. now rewrite map_id.
Qed.

(** The whole function as a decision list: what a run prints, writes and
    returns, by what it finds. *)
Lemma preprocess_cases fs base_path out w :
  let all_files := find_files base_path fs in
  let U := unified (loaded all_files) in
  let log := stdout w ++ found_log base_path all_files in
  preprocess_vehicle_data fs base_path out w
  = match all_files, loaded all_files with
    | [], _ =>
        (mkWorld (stdout w ++ [Searching base_path; ErrorNoFiles]) (written w),
         Ok tt)
    | _ :: _, [] => (mkWorld (log ++ [ErrorNoFrames]) (written w), Ok tt)
    | _ :: _, _ :: _ =>
        match first_bad (columns U) lookups with
        | Some c =>
            (mkWorld (log ++ failure_log U c) (written w),
             Raise (lookup_error (columns U) c))
        | None =>
            match write_error out (expected_table U) with
            | Some e =>
                (mkWorld (log ++ success_log U out) (written w),
                 Raise (IOError e))
            | None =>
                (mkWorld (log ++ success_log U out
                          ++ final_log (expected_table U))
                         ((out, expected_table U) :: written w),
                 Ok tt)
            end
        end
    end.
Proof.
  cbv zeta.
  destruct (find_files base_path fs) as [|p ps] eqn:E.
  - now apply preprocess_no_files.
  - rewrite preprocess_read by congruence.
    cbv zeta. rewrite E.
    destruct (loaded (p :: ps)) as [|df dfs] eqn:El; [reflexivity|].
    destruct (first_bad (columns (unified (df :: dfs))) lookups) as [c|] eqn:Eb.
    + rewrite (process_raise _ _ _ c) by assumption. reflexivity.
    + apply usable_first_bad in Eb.
      rewrite process_success by assumption. cbv zeta.
      destruct (write_error out _); cbn [stdout written]; reflexivity.
Qed.

Lemma lookup_error_cases cols c :
  (~ In c cols -> lookup_error cols c = KeyError c)
  /\ (In c cols -> lookup_error cols c = TypeError c).
Proof.
  unfold lookup_error. split; intros H.
  - apply positions_nil in H. now rewrite H.
  - destruct (positions c cols) eqn:E; [|reflexivity].
    apply positions_nil in E. contradiction.
Qed.

(** X1. When files load, the run stops at the first of the ten column
    lookups (in the order [vehicle_state], [charge_state], [record_time],
    then the numeric columns) whose label does not name exactly one column
    of the unified table. The exception is [KeyError] when the column is
    absent and [TypeError] when it is there twice; nothing is written, and
    nothing is printed after the line of the step that failed. *)
Theorem lookup_failure_ends_run fs base_path out w c :
  let all_files := find_files base_path fs in
  let U := unified (loaded all_files) in
  loaded all_files <> [] ->
  first_bad (columns U) lookups = Some c ->
  preprocess_vehicle_data fs base_path out w
  = (mkWorld (stdout w ++ found_log base_path all_files ++ failure_log U c)
             (written w),
     Raise (lookup_error (columns U) c))
  /\ (~ In c (columns U) -> lookup_error (columns U) c = KeyError c)
  /\ (In c (columns U) -> lookup_error (columns U) c = TypeError c).
Proof.
  intros all_files U Hl Hc. split; [|apply lookup_error_cases].
  rewrite preprocess_read by now apply (loaded_files_nonempty read_excel).
  cbv zeta. fold all_files.
  destruct (loaded all_files) as [|df dfs] eqn:El; [congruence|].
  fold U. rewrite (process_raise _ _ _ c) by assumption.
  cbn [stdout written]. now rewrite <- app_assoc.
Qed.

(** X2. When every lookup succeeds but the Parquet writer fails, its
    exception ends the run: no file is recorded, the last line printed is
    the "Saving" line, and none of the completion lines follows. *)
Theorem write_failure_ends_run fs base_path out w e :
  let all_files := find_files base_path fs in
  let U := unified (loaded all_files) in
  loaded all_files <> [] ->
  usable (columns U) = true ->
  write_error out (expected_table U) = Some e ->
  preprocess_vehicle_data fs base_path out w
  = (mkWorld (stdout w ++ found_log base_path all_files ++ success_log U out)
             (written w),
     Raise (IOError e)).
Proof.
  intros all_files U Hl Hu He.
  rewrite preprocess_read by now apply (loaded_files_nonempty read_excel).
  cbv zeta. fold all_files.
  destruct (loaded all_files) as [|df dfs] eqn:El; [congruence|].
  fold U. rewrite process_success by assumption. cbv zeta. fold U.
  rewrite He. cbn [stdout written]. now rewrite <- app_assoc.
Qed.

(** X3. A run changes the written files in one way at most: it adds one
    file, under the output name it was given, and keeps what was there. It
    does so exactly when files load, every lookup succeeds and the writer
    does not fail. *)
Theorem writes_only_the_output fs base_path out w w' r :
  preprocess_vehicle_data fs base_path out w = (w', r) ->
  let U := unified (loaded (find_files base_path fs)) in
  (written w' = written w
   \/ written w' = (out, expected_table U) :: written w)
  /\ (written w' = (out, expected_table U) :: written w <->
      loaded (find_files base_path fs) <> []
      /\ usable (columns U) = true
      /\ write_error out (expected_table U) = None).
Proof.
  intros Hrun U. rewrite preprocess_cases in Hrun. cbv zeta in Hrun.
  fold U in Hrun.
  destruct (find_files base_path fs) as [|p ps] eqn:E.
  { injection Hrun as <- <-. cbn [written]. split; [now left|].
    split; [intros H; now apply cons_neq_self in H|].
    intros (H & _). now contradiction H. }
  destruct (loaded (p :: ps)) as [|df dfs] eqn:El.
  { injection Hrun as <- <-. cbn [written]. split; [now left|].
    split; [intros H; now apply cons_neq_self in H|].
    intros (H & _). now contradiction H. }
  destruct (first_bad (columns U) lookups) as [c|] eqn:Eb.
  { injection Hrun as <- <-. cbn [written]. split; [now left|].
    split; [intros H; now apply cons_neq_self in H|].
    intros (_ & H & _). apply usable_first_bad in H. congruence. }
  destruct (write_error out (expected_table U)) as [e|] eqn:Ew.
  { injection Hrun as <- <-. cbn [written]. split; [now left|].
    split; [intros H; now apply cons_neq_self in H|].
    intros (_ & _ & H). discriminate. }
  injection Hrun as <- <-. cbn [written]. split; [now right|].
  split; [|reflexivity]. intros _.
  split; [discriminate|]. split; [|reflexivity].
  now apply usable_first_bad.
Qed.

Lemma warnings_are_warnings all_files m :
  In m (warnings all_files) -> exists p e, m = WarningRead p e.
Proof.
  induction all_files as [|q qs IH]; simpl; [contradiction|].
  destruct (read_excel q) as [e|df]; [|exact IH].
  intros [<-|H]; eauto.
Qed.

Lemma found_log_lines base_path all_files m :
  In m (found_log base_path all_files) ->
  m = Searching base_path \/ m = Found (length all_files)
  \/ exists p e, m = WarningRead p e.
Proof.
  unfold preprocess.found_log. rewrite in_app_iff. simpl.
  intros [[<-|[<-|[]]]|H]; auto.
  right. right. exact (warnings_are_warnings _ _ H).
Qed.

Lemma success_log_lines df out m :
  In m (success_log df out) ->
  In m [Concatenating; InitialRecords (len df); Translating; Converting;
        Dropped (rows_dropped df); Sorting; Saving out].
Proof.
  unfold preprocess.success_log, dropped_line. rewrite !in_app_iff.
  destruct (0 <? rows_dropped df)%nat; simpl; tauto.
Qed.

Lemma failure_log_lines df c m :
  In m (failure_log df c) ->
  In m [Concatenating; InitialRecords (len df); Translating; Converting].
Proof.
  unfold failure_log. rewrite in_app_iff.
  destruct (_ || _); simpl; tauto.
Qed.

(** X4. The lines "Pre-processing Complete" and "Data saved successfully"
    are among what a run prints exactly when it has written the file; a run
    that returns to its caller without having written printed one of the two
    error lines instead. *)
Theorem saved_only_when_written fs base_path out w w' r :
  preprocess_vehicle_data fs base_path out w = (w', r) ->
  exists lines,
    stdout w' = stdout w ++ lines
    /\ (In Saved lines <-> exists t, written w' = (out, t) :: written w)
    /\ (In Complete lines <-> In Saved lines)
    /\ (r = Ok tt ->
        (exists t, written w' = (out, t) :: written w)
        \/ In ErrorNoFiles lines \/ In ErrorNoFrames lines).
Proof.
  intros Hrun. rewrite preprocess_cases in Hrun. cbv zeta in Hrun.
  set (U := unified (loaded (find_files base_path fs))) in *.
  assert (Hfound : forall m, In m (found_log base_path (find_files base_path fs)) ->
                             m <> Saved /\ m <> Complete).
  { intros m Hm. apply found_log_lines in Hm.
    destruct Hm as [->|[->|(p & e & ->)]]; split; discriminate. }
  assert (Hsucc : forall m, In m (success_log U out) ->
                            m <> Saved /\ m <> Complete).
  { intros m Hm. apply success_log_lines in Hm. simpl in Hm.
    repeat (destruct Hm as [<-|Hm]; [split; discriminate|]). contradiction. }
  assert (Hfail : forall c m, In m (failure_log U c) ->
                              m <> Saved /\ m <> Complete).
  { intros c m Hm. apply failure_log_lines in Hm. simpl in Hm.
    repeat (destruct Hm as [<-|Hm]; [split; discriminate|]). contradiction. }
  destruct (find_files base_path fs) as [|p ps] eqn:E.
  { injection Hrun as <- <-. eexists. split; [reflexivity|]. cbn [written].
    split; [|split].
    - split; [simpl; intuition discriminate|].
      intros (t & H). now apply cons_neq_self in H.
    - simpl; intuition discriminate.
    - intros _. right. left. simpl. auto. }
  destruct (loaded (p :: ps)) as [|df dfs] eqn:El.
  { injection Hrun as <- <-. eexists.
    split; [now rewrite <- app_assoc|]. cbn [written].
    split; [|split].
    - split.
      + rewrite in_app_iff. intros [H|H].
        * apply Hfound in H. now destruct H.
        * simpl in H. intuition discriminate.
      + intros (t & H). now apply cons_neq_self in H.
    - rewrite !in_app_iff. split; intros [H|H];
        try (apply Hfound in H; destruct H; congruence);
        simpl in H; intuition discriminate.
    - intros _. right. right. apply in_or_app. right. now left. }
  destruct (first_bad (columns U) lookups) as [c|] eqn:Eb.
  { injection Hrun as <- <-. eexists.
    split; [now rewrite <- app_assoc|]. cbn [written].
    split; [|split].
    - split.
      + rewrite in_app_iff. intros [H|H].
        * apply Hfound in H. now destruct H.
        * apply Hfail in H. now destruct H.
      + intros (t & H). now apply cons_neq_self in H.
    - rewrite !in_app_iff. split; intros [H|H];
        try (apply Hfound in H; destruct H; congruence);
        apply Hfail in H; destruct H; congruence.
    - discriminate. }
  destruct (write_error out (expected_table U)) as [e|] eqn:Ew.
  { injection Hrun as <- <-. eexists.
    split; [now rewrite <- app_assoc|]. cbn [written].
    split; [|split].
    - split.
      + rewrite in_app_iff. intros [H|H].
        * apply Hfound in H. now destruct H.
        * apply Hsucc in H. now destruct H.
      + intros (t & H). now apply cons_neq_self in H.
    - rewrite !in_app_iff. split; intros [H|H];
        try (apply Hfound in H; destruct H; congruence);
        apply Hsucc in H; destruct H; congruence.
    - discriminate. }
  injection Hrun as <- <-.
  exists (found_log base_path (p :: ps)
          ++ success_log U out ++ final_log (expected_table U)).
  split; [cbn [stdout]; now rewrite <- app_assoc|]. cbn [written].
  split; [|split].
  - split; [eauto|]. intros _.
    rewrite !in_app_iff. right. right. simpl. auto.
  - split; intros _; rewrite !in_app_iff; right; right; simpl; auto.
  - intros _. left. eauto.
Qed.

End Outcomes.

(** ** More about step 1: the files a run finds *)

Lemma dir_induction (P : dir -> Prop) :
  (forall name files subdirs, Forall P subdirs -> P (Dir name files subdirs)) ->
  forall d, P d.
Proof.
  intros H. fix IH 1. intros [name files subdirs]. apply H.
  induction subdirs as [|d l IHl]; constructor; [apply IH|exact IHl].
Qed.

Lemma walk_unfold top name files subdirs :
  walk top (Dir name files subdirs)
  = (top, map dir_name subdirs, files)
    :: flat_map (fun d => walk (path_join top (dir_name d)) d) subdirs.
Proof.
  reflexivity.
Qed.

(** [os.walk] yields exactly the directories below its starting point. *)
Lemma walk_below d :
  forall top root files,
    (exists dirs, In (root, dirs, files) (walk top d)) <-> below top d root files.
Proof.
  induction d as [name files0 subdirs IH] using dir_induction.
  intros top root files. rewrite walk_unfold. split.
  - intros (dirs & [H|H]).
    + injection H as <- _ <-. constructor.
    + apply in_flat_map in H as (d & Hd & Hin).
      rewrite Forall_forall in IH.
      eapply below_sub; [exact Hd|]. apply (IH d Hd). eauto.
  - intros H. inversion H as [| ? ? ? ? d ? ? Hd Hb]; subst.
    + eexists. left. reflexivity.
    + rewrite Forall_forall in IH.
      apply (IH d Hd) in Hb as (dirs & Hin).
      exists dirs. right. apply in_flat_map. eauto.
Qed.

Lemma prefix_refl s : String.prefix s s = true.
Proof.
  induction s as [|a s IH]; simpl; [reflexivity|].
  destruct (Ascii.ascii_dec a a); [assumption|congruence].
Qed.

Lemma prefix_empty t : String.prefix "" t = true.
Proof. now destruct t. Qed.

Lemma prefix_append s t : String.prefix s (s ++ t)%string = true.
Proof.
  induction s as [|a s IH]; simpl; [apply prefix_empty|].
  destruct (Ascii.ascii_dec a a); [assumption|congruence].
Qed.

Lemma prefix_trans s t u :
  String.prefix s t = true -> String.prefix t u = true ->
  String.prefix s u = true.
Proof.
  revert t u; induction s as [|a s IH]; intros [|b t] [|c u]; simpl;
    try reflexivity; try discriminate.
  destruct (Ascii.ascii_dec a b) as [->|]; [|discriminate].
  destruct (Ascii.ascii_dec b c) as [->|]; [|discriminate].
  apply IH.
Qed.

Lemma prefix_path_join root name : String.prefix root (path_join root name) = true.
Proof.
  unfold path_join.
  destruct (String.eqb_spec root "") as [->|_]; [apply prefix_empty|].
  destruct (endswith root "/"); apply prefix_append.
Qed.

Lemma list_ascii_of_append s t :
  list_ascii_of_string (s ++ t)%string
  = list_ascii_of_string s ++ list_ascii_of_string t.
Proof.
  induction s as [|a s IH]; simpl; [reflexivity|]. now rewrite IH.
Qed.

Lemma rev_prefix_app p x y :
  rev_prefix p x = true -> rev_prefix p (x ++ y) = true.
Proof.
  revert x; induction p as [|a p IH]; intros [|b x]; simpl;
    try reflexivity; try discriminate.
  intros H. apply andb_true_iff in H as [H1 H2].
  rewrite H1. simpl. now apply IH.
Qed.

Lemma endswith_append s t suffix :
  endswith t suffix = true -> endswith (s ++ t)%string suffix = true.
Proof.
  unfold endswith. rewrite list_ascii_of_append, rev_app_distr.
  apply rev_prefix_app.
Qed.

Lemma endswith_path_join root name suffix :
  endswith name suffix = true -> endswith (path_join root name) suffix = true.
Proof.
  intros H. unfold path_join. destruct (String.eqb root ""); [assumption|].
  destruct (endswith root "/"); repeat apply endswith_append; assumption.
Qed.

Lemma below_prefix top d root files :
  below top d root files -> String.prefix top root = true.
Proof.
  induction 1 as [|top name files subdirs d root files' Hd Hb IH].
  - apply prefix_refl.
  - eapply prefix_trans; [apply prefix_path_join|exact IH].
Qed.

Lemma find_files_In base_path fs p :
  In p (find_files base_path fs) <->
  exists d root files file,
    fs = Some d /\ below base_path d root files /\ In file files
    /\ endswith file ".xlsx" = true /\ p = path_join root file.
Proof.
  unfold find_files. rewrite in_flat_map. split.
  - intros ([[root dirs] files] & Hin & Hp).
    apply in_map_iff in Hp as (file & <- & Hf).
    apply filter_In in Hf as [Hf He].
    destruct fs as [d|]; [|contradiction].
    exists d, root, files, file. repeat split; auto.
    apply walk_below. eauto.
  - intros (d & root & files & file & -> & Hb & Hf & He & ->).
    apply walk_below in Hb as (dirs & Hin).
    exists (root, dirs, files). split; [exact Hin|].
    apply in_map, filter_In. auto.
Qed.

Lemma find_files_shape base_path fs p :
  In p (find_files base_path fs) ->
  endswith p ".xlsx" = true /\ String.prefix base_path p = true.
Proof.
  intros H.
  apply find_files_In in H as (d & root & files & file & _ & Hb & _ & He & ->).
  split.
  - now apply endswith_path_join.
  - eapply prefix_trans; [eapply below_prefix; eassumption|].
    apply prefix_path_join.
Qed.

Lemma prefix_app_same s t u :
  String.prefix t u = true -> String.prefix (s ++ t) (s ++ u) = true.
Proof.
  intros H. induction s as [|a s IH]; simpl; [assumption|].
  destruct (Ascii.ascii_dec a a); [assumption|congruence].
Qed.

(** The path of a directory with the separator behind it starts every path
    joined from it. *)
Lemma prefix_join_join root name :
  String.prefix (path_join root "") (path_join root name) = true.
Proof.
  unfold path_join.
  destruct (String.eqb root ""); [apply prefix_empty|].
  destruct (endswith root "/"); repeat apply prefix_app_same;
    apply prefix_empty.
Qed.

Lemma below_inside top d root files :
  below top d root files ->
  root = top \/ String.prefix (path_join top "") root = true.
Proof.
  induction 1 as [|top name files subdirs d root files' Hd Hb IH];
    [now left|right].
  eapply prefix_trans; [apply prefix_join_join|].
  destruct IH as [->|IH]; [apply prefix_refl|].
  eapply prefix_trans; [apply prefix_path_join|exact IH].
Qed.

(** A found path lies inside the base path: it starts with the base path
    and the separator, not only with the text of the base path. *)
Lemma found_inside base_path fs p :
  In p (find_files base_path fs) ->
  String.prefix (path_join base_path "") p = true.
Proof.
  intros H.
  apply find_files_In in H as (d & root & files & file & _ & Hb & _ & _ & ->).
  apply below_inside in Hb as [->|Hb]; [apply prefix_join_join|].
  eapply prefix_trans; [exact Hb|apply prefix_path_join].
Qed.

(** X5. Step 1 finds exactly the files, at any depth below the base path,
    whose name ends in [.xlsx], each under the path of its directory joined
    with its name. So every path it finds ends in [.xlsx] and starts with
    the base path and the separator behind it; a base path that is no
    directory yields nothing. *)
Theorem finds_the_xlsx_files base_path fs p :
  (In p (find_files base_path fs) <->
   exists d root files file,
     fs = Some d /\ below base_path d root files /\ In file files
     /\ endswith file ".xlsx" = true /\ p = path_join root file)
  /\ (In p (find_files base_path fs) ->
      endswith p ".xlsx" = true /\ String.prefix base_path p = true
      /\ String.prefix (path_join base_path "") p = true).
Proof.
  split; [apply find_files_In|].
  intros H. destruct (find_files_shape _ _ _ H) as [H1 H2].
  repeat split; auto. now apply (found_inside _ fs).
Qed.

(** ** More about step 3: the unified table *)

Lemma unique_In seen l c :
  In c (pd.unique seen l) <-> In c l /\ ~ In c seen.
Proof.
  revert seen; induction l as [|x l IH]; intros seen; simpl; [tauto|].
  destruct (existsb (String.eqb x) seen) eqn:E.
  - apply existsb_exists in E as (y & Hy & Hxy).
    apply String.eqb_eq in Hxy. subst y.
    rewrite IH. split; [tauto|]. intros [[->|H] Hn]; tauto.
  - assert (Hx : ~ In x seen).
    { intros H. apply Bool.not_true_iff_false in E. apply E.
      apply existsb_exists. exists x. split; [assumption|apply String.eqb_refl]. }
    simpl. rewrite IH. simpl. split.
    + intros [<-|[H1 H2]]; [tauto|]. split; [tauto|]. intros H. apply H2. now right.
    + intros [[<-|H1] H2]; [now left|].
      destruct (string_dec x c) as [->|Hne]; [now left|].
      right. split; [assumption|]. intros [H|H]; [congruence|tauto].
Qed.

Lemma unique_NoDup seen l : NoDup (pd.unique seen l).
Proof.
  revert seen; induction l as [|x l IH]; intros seen; simpl; [constructor|].
  destruct (existsb (String.eqb x) seen); [apply IH|].
  constructor; [|apply IH].
  rewrite unique_In. intros [_ H]. apply H. now left.
Qed.

Lemma union_columns_In dfs c :
  In c (pd.union_columns dfs) <-> exists df, In df dfs /\ In c (columns df).
Proof.
  unfold pd.union_columns. rewrite unique_In, in_flat_map. simpl. tauto.
Qed.

(** A value under a label survives the layout on another header that has
    the label. *)
Lemma value_reindex cols union r c :
  In c union ->
  value union c (pd.reindex_row cols union r) = value cols c (cells r).
Proof.
  intros Hin. unfold value at 1.
  destruct (positions c union) as [|i l] eqn:E.
  - apply positions_nil in E. contradiction.
  - assert (Hi : nth_error union i = Some c).
    { apply positions_spec. rewrite E. now left. }
    unfold pd.reindex_row.
    apply (map_nth_error (fun c => value cols c (cells r))) in Hi.
    now apply nth_error_nth.
Qed.

Lemma value_absent cols c cs : ~ In c cols -> value cols c cs = NA.
Proof.
  intros H. apply positions_nil in H. unfold value. now rewrite H.
Qed.

Lemma labels_relabel n l : map label (pd.relabel n l) = seq n (length l).
Proof.
  revert n; induction l as [|cs l IH]; intros n; simpl; [reflexivity|].
  now rewrite IH.
Qed.

Lemma length_flat_map_rows (f : DataFrame -> list (list cell)) dfs :
  (forall df, length (f df) = len df) ->
  length (flat_map f dfs) = list_sum (map len dfs).
Proof.
  intros H. induction dfs as [|df dfs IH]; simpl; [reflexivity|].
  now rewrite length_app, H, IH.
Qed.

(** X6. Concatenation keeps every row of every frame and nothing else: the
    unified table has as many rows as the frames together, labelled 0, 1,
    2, ...; its header has each label of any frame exactly once; and each
    of its rows is a row of a frame, with the same value under every label,
    missing where the frame has no such column. *)
Theorem concat_keeps_every_row dfs :
  let full_df := pd.concat dfs in
  len full_df = list_sum (map len dfs)
  /\ map label (rows full_df) = seq 0 (len full_df)
  /\ NoDup (columns full_df)
  /\ (forall c, In c (columns full_df)
                <-> exists df, In df dfs /\ In c (columns df))
  /\ (forall df r, In df dfs -> In r (rows df) ->
        exists r', In r' (rows full_df)
          /\ forall c, value (columns full_df) c (cells r')
                       = value (columns df) c (cells r))
  /\ (forall r', In r' (rows full_df) ->
        exists df r, In df dfs /\ In r (rows df)
          /\ forall c, value (columns full_df) c (cells r')
                       = value (columns df) c (cells r)).
Proof.
  cbv zeta. unfold pd.concat, len. cbn [rows columns].
  set (union := pd.union_columns dfs).
  assert (Hval : forall df r c, In df dfs ->
            value union c (pd.reindex_row (columns df) union r)
            = value (columns df) c (cells r)).
  { intros df r c Hdf.
    destruct (in_dec string_dec c union) as [Hin|Hn].
    - now apply value_reindex.
    - rewrite !value_absent; auto.
      intros Hc. apply Hn. apply union_columns_In. eauto. }
  repeat split.
  - rewrite length_relabel. apply length_flat_map_rows.
    intros df. unfold pd.reindexed, len. now rewrite length_map.
  - now rewrite labels_relabel, length_relabel.
  - apply unique_NoDup.
  - apply union_columns_In.
  - apply union_columns_In.
  - intros df r Hdf Hr.
    assert (Hc : In (pd.reindex_row (columns df) union r)
                   (map cells (pd.relabel 0 (flat_map (pd.reindexed union) dfs)))).
    { rewrite map_cells_relabel. apply in_flat_map. exists df.
      split; [assumption|]. unfold pd.reindexed. now apply in_map. }
    apply in_map_iff in Hc as (r' & Hr' & Hin).
    exists r'. split; [assumption|]. intros c. rewrite Hr'. now apply Hval.
  - intros r' Hr'.
    assert (Hc : In (cells r')
                   (map cells (pd.relabel 0 (flat_map (pd.reindexed union) dfs))))
      by now apply in_map.
    rewrite map_cells_relabel in Hc.
    apply in_flat_map in Hc as (df & Hdf & Hc).
    unfold pd.reindexed in Hc. apply in_map_iff in Hc as (r & Hr & Hin).
    exists df, r. repeat split; auto. intros c. rewrite <- Hr. now apply Hval.
Qed.

(** ** More about steps 4 and 5: renaming and translating again *)

Lemma rename_label_cases c :
  (pd.rename_label cleaned_columns c = c /\ dict_get cleaned_columns c = None)
  \/ exists c', pd.rename_label cleaned_columns c = c'
                /\ In (c, c') cleaned_columns.
Proof.
  unfold pd.rename_label.
  destruct (dict_get cleaned_columns c) as [c'|] eqn:E; [right|left; auto].
  exists c'. split; [reflexivity|].
  unfold cleaned_columns in *. cbn [dict_get] in E.
  repeat match type of E with
  | (if String.eqb ?k c then _ else _) = _ =>
      destruct (String.eqb_spec k c) as [<-|_];
        [injection E as <-; simpl; repeat first [left; reflexivity|right]|]
  end.
  discriminate.
Qed.

(** X7. Renaming is idempotent, and it leaves the ten canonical labels and
    every label outside the table alone, so a file that already has the
    canonical header goes through step 4 unchanged. It is not one-to-one:
    two different labels get the same name only when one is the source
    header and the other the canonical name of the same numeric column,
    which is how a numeric column can end up twice in the unified table. *)
Theorem rename_is_idempotent :
  (forall c,
     pd.rename_label cleaned_columns (pd.rename_label cleaned_columns c)
     = pd.rename_label cleaned_columns c)
  /\ (forall df,
        pd.rename cleaned_columns (pd.rename cleaned_columns df)
        = pd.rename cleaned_columns df)
  /\ (forall c, In c canonical_columns ->
        pd.rename_label cleaned_columns c = c)
  /\ (forall c, dict_get cleaned_columns c = None ->
        pd.rename_label cleaned_columns c = c)
  /\ (forall c1 c2,
        c1 <> c2 ->
        pd.rename_label cleaned_columns c1 = pd.rename_label cleaned_columns c2 ->
        In (pd.rename_label cleaned_columns c1) numeric_cols
        /\ (c1 = pd.rename_label cleaned_columns c1
            \/ c2 = pd.rename_label cleaned_columns c1)).
Proof.
  assert (Hidem : forall c,
            pd.rename_label cleaned_columns (pd.rename_label cleaned_columns c)
            = pd.rename_label cleaned_columns c).
  { intros c.
    destruct (rename_label_cases c) as [[E _]|(c' & E & H)];
      [now rewrite !E|rewrite !E].
    unfold cleaned_columns in H. cbn [In] in H.
    repeat (destruct H as [H|H]; [injection H as _ <-; reflexivity|]).
    contradiction. }
  split; [exact Hidem|]. split; [|split; [|split]].
  - intros [cols rs]. unfold pd.rename. cbn [columns rows]. f_equal.
    rewrite map_map. apply map_ext. exact Hidem.
  - intros c H. unfold canonical_columns in H. cbn [In] in H.
    repeat (destruct H as [<-|H]; [reflexivity|]). contradiction.
  - intros c H. unfold pd.rename_label. now rewrite H.
  - intros c1 c2 Hne Heq.
    destruct (rename_label_cases c1) as [[E1 N1]|(v1 & E1 & H1)];
      destruct (rename_label_cases c2) as [[E2 N2]|(v2 & E2 & H2)];
      rewrite E1, E2 in Heq; rewrite E1; clear E1 E2; subst.
    + congruence.
    + unfold cleaned_columns in H2. cbn [In] in H2.
      repeat (destruct H2 as [H2|H2];
              [injection H2 as <- <-;
               first [congruence | discriminate N1
                     | split; [simpl; repeat first [left; reflexivity|right]
                              |now left]]|]).
      contradiction.
    + unfold cleaned_columns in H1. cbn [In] in H1.
      repeat (destruct H1 as [H1|H1];
              [injection H1 as <- <-;
               first [congruence | discriminate N2
                     | split; [simpl; repeat first [left; reflexivity|right]
                              |now right]]|]).
      contradiction.
    + unfold cleaned_columns in H1, H2. cbn [In] in H1, H2.
      repeat (destruct H1 as [H1|H1];
              [apply pair_equal_spec in H1 as [<- <-];
               repeat (destruct H2 as [H2|H2];
                       [apply pair_equal_spec in H2 as [<- E'];
                        first [congruence|discriminate E']|]);
               contradiction|]).
      contradiction.
Qed.

(** ** More about step 2: what a run takes from the reader *)

Lemma read_files_ext (r1 r2 : string -> string + DataFrame) all_files :
  (forall p, In p all_files -> r1 p = r2 p) ->
  forall w, read_files r1 all_files w = read_files r2 all_files w.
Proof.
  induction all_files as [|p ps IH]; intros H w; simpl; [reflexivity|].
  rewrite <- (H p) by now left.
  assert (IH' : forall w, read_files r1 ps w = read_files r2 ps w).
  { apply IH. intros q Hq. apply H. now right. }
  destruct (r1 p) as [e|df]; unfold bind.
  - cbn [print]. apply IH'.
  - now rewrite IH'.
Qed.

(** Readers that agree on what step 1 can find read the found files alike. *)
Lemma read_found_ext r1 r2 base_path fs :
  (forall p, String.prefix (path_join base_path "") p = true ->
             endswith p ".xlsx" = true -> r1 p = r2 p) ->
  forall w,
    read_files r1 (find_files base_path fs) w
    = read_files r2 (find_files base_path fs) w.
Proof.
  intros H. apply read_files_ext. intros q Hq. apply H.
  - now apply (found_inside _ fs).
  - now apply find_files_shape in Hq.
Qed.

(** X8. A run asks the reader for the files it found and for nothing else:
    two readers that agree on every path that lies inside the base path and
    ends in [.xlsx] give the same run, with the same output, the same
    printed lines and the same result. What any other file holds, or
    whether it can be read at all, plays no role. *)
Theorem reads_only_found_files r1 r2 parse_datetime parse_numeric quicksort
    write_error fs base_path out w :
  (forall p, String.prefix (path_join base_path "") p = true ->
             endswith p ".xlsx" = true -> r1 p = r2 p) ->
  preprocess_vehicle_data r1 parse_datetime parse_numeric quicksort write_error
    fs base_path out w
  = preprocess_vehicle_data r2 parse_datetime parse_numeric quicksort
      write_error fs base_path out w.
Proof.
  intros H. pose proof (read_found_ext r1 r2 base_path fs H) as Hread.
  unfold preprocess_vehicle_data. rewrite !bind_print. cbv zeta.
  destruct (find_files base_path fs) as [|p ps]; [reflexivity|].
  rewrite !bind_print. unfold bind. now rewrite Hread.
Qed.

(** ** More about the written rows *)


Lemma vehicle_state_range v :
  In (pd.map_value vehicle_state_map v)
     [NA; Str "Vehicle Start"; Str "Engine Off"].
Proof.
  destruct v as [|s| | | |]; try (now left).
  unfold pd.map_value, vehicle_state_map. cbn [dict_get].
  repeat match goal with
  | |- context [String.eqb ?k s] => destruct (String.eqb k s)
  end; cbn [In]; auto.
Qed.

Lemma charge_state_range v :
  In (pd.map_value charge_state_map v)
     [NA; Str "Not Charging"; Str "Parked Charging"; Str "Charging Complete"].
Proof.
  destruct v as [|s| | | |]; try (now left).
  unfold pd.map_value, charge_state_map. cbn [dict_get].
  repeat match goal with
  | |- context [String.eqb ?k s] => destruct (String.eqb k s)
  end; cbn [In]; auto 6.
Qed.

Lemma filter_none {A} (f : A -> bool) l :
  (forall x, In x l -> f x = false) -> filter f l = [].
Proof.
  induction l as [|a l IH]; intros H; simpl; [reflexivity|].
  rewrite (H a) by now left. apply IH. intros x Hx. apply H. now right.
Qed.

Lemma filter_all {A} (f : A -> bool) l :
  (forall x, In x l -> f x = true) -> filter f l = l.
Proof.
  induction l as [|a l IH]; intros H; simpl; [reflexivity|].
  rewrite (H a) by now left. f_equal. apply IH. intros x Hx. apply H. now right.
Qed.





Lemma len_unified dfs : len (unified dfs) = list_sum (map len dfs).
Proof.
  unfold unified, pd.rename, pd.concat, len. cbn [rows].
  rewrite length_relabel. apply length_flat_map_rows.
  intros df. unfold pd.reindexed, len. now rewrite length_map.
Qed.

Section Rows.

Variable read_excel : string -> string + DataFrame.
Variable parse_datetime : cell -> option Z.
Variable parse_numeric : cell -> option spec_float.
Variable quicksort : pd.sort_kind.
Variable write_error : string -> parquet -> option string.

Hypothesis quicksort_sorts : pd.sorts quicksort.

Local Abbreviation surviving := (surviving parse_datetime parse_numeric).
Local Abbreviation expected_table :=
  (expected_table parse_datetime parse_numeric quicksort).
Local Abbreviation found_log := (found_log read_excel).
Local Abbreviation success_log := (success_log parse_datetime parse_numeric).
Local Abbreviation normalize_record := (normalize_record parse_datetime parse_numeric).
Local Abbreviation required_ok := (required_ok parse_datetime parse_numeric).
Local Abbreviation rows_dropped := (rows_dropped parse_datetime parse_numeric).
Local Abbreviation preprocess_vehicle_data :=
  (preprocess_vehicle_data read_excel parse_datetime parse_numeric quicksort
     write_error).
Local Abbreviation main :=
  (main read_excel parse_datetime parse_numeric quicksort write_error).
Local Abbreviation loaded := (loaded read_excel).
Local Abbreviation warnings := (warnings read_excel).

(** A written row is a rewritten row of the unified table. *)
Lemma written_row fs base_path out w w' r t rec :
  preprocess_vehicle_data fs base_path out w = (w', r) ->
  written w' = (out, t) :: written w ->
  In rec (records t) ->
  let U := unified (loaded (find_files base_path fs)) in
  schema t = columns U
  /\ usable (columns U) = true
  /\ exists raw,
       In raw (map cells (rows U)) /\ length raw = length (columns U)
       /\ required_ok (columns U) raw = true
       /\ rec = normalize_record (columns U) raw.
Proof.
  intros Hrun Hw Hrec U.
  destruct (run_written _ _ _ _ _ quicksort_sorts _ _ _ _ _ _ _ Hrun Hw)
    as (_ & _ & Hu & _ & Ht & _). fold U in Hu, Ht. subst t.
  split; [reflexivity|]. split; [assumption|].
  eapply Permutation_in in Hrec; [|now apply expected_perm].
  apply surviving_In in Hrec as (raw & Hraw & Hok & ->).
  exists raw. repeat split; auto.
  apply raw_length; [|assumption].
  apply rename_well_formed, concat_well_formed.
Qed.


(** X10. In a written table the [vehicle_state] column holds nothing but
    the two English labels and the missing value, and the [charge_state]
    column nothing but the three English labels and the missing value. The
    English labels are no keys of the tables, so translating a translated
    value gives the missing value: files that already carry the English
    labels lose their states. *)
Theorem states_are_labels_or_missing fs base_path out w w' r t :
  preprocess_vehicle_data fs base_path out w = (w', r) ->
  written w' = (out, t) :: written w ->
  (forall rec, In rec (records t) ->
     In (value (schema t) "vehicle_state" rec)
        [NA; Str "Vehicle Start"; Str "Engine Off"]
     /\ In (value (schema t) "charge_state" rec)
           [NA; Str "Not Charging"; Str "Parked Charging";
            Str "Charging Complete"])
  /\ (forall v, pd.map_value vehicle_state_map
                  (pd.map_value vehicle_state_map v) = NA)
  /\ (forall v, pd.map_value charge_state_map
                  (pd.map_value charge_state_map v) = NA).
Proof.
  intros Hrun Hw. split; [|split].
  - intros rec Hrec.
    destruct (written_row _ _ _ _ _ _ _ _ Hrun Hw Hrec)
      as (Hs & Hu & raw & Hraw & Hlen & Hok & ->).
    rewrite Hs. unfold preprocess.normalize_record.
    rewrite !value_by_label;
      try assumption; try (apply has_once_In, usable_In; simpl; auto).
    split; [apply vehicle_state_range|apply charge_state_range].
  - intros v.
    destruct (vehicle_state_range v) as [<-|[<-|[<-|[]]]]; reflexivity.
  - intros v.
    destruct (charge_state_range v) as [<-|[<-|[<-|[<-|[]]]]]; reflexivity.
Qed.

Lemma quicksort_nil : quicksort [] = [].
Proof.
  apply Permutation_nil. symmetry. exact (proj1 (quicksort_sorts [])).
Qed.

(** X11. When files load with all the columns but no row can be kept (the
    sheets are empty, or every row fails to parse in a required field), the
    run does not stop with an error: it writes a table with the header and
    no row, reports every row as dropped and zero final records, and
    returns normally. *)
Theorem empty_result_is_written fs base_path out w :
  let all_files := find_files base_path fs in
  let U := unified (loaded all_files) in
  let empty := mkParquet (columns U) [] in
  loaded all_files <> [] ->
  usable (columns U) = true ->
  (forall raw, In raw (map cells (rows U)) ->
               required_ok (columns U) raw = false) ->
  write_error out empty = None ->
  preprocess_vehicle_data fs base_path out w
  = (mkWorld
       (stdout w ++ found_log base_path all_files
        ++ [Concatenating; InitialRecords (len U); Translating; Converting]
        ++ dropped_line (len U)
        ++ [Sorting; Saving out; Complete; FinalRecords 0; Saved; FirstRows []])
       ((out, empty) :: written w),
     Ok tt).
Proof.
  intros all_files U empty Hl Hu Hbad Hw.
  assert (Hs : surviving U = []).
  { unfold preprocess.surviving. now rewrite filter_none. }
  assert (Ht : expected_table U = empty).
  { unfold preprocess.expected_table. rewrite Hs. cbn [map].
    now rewrite quicksort_nil. }
  assert (Hd : rows_dropped U = len U).
  { unfold preprocess.rows_dropped, len. rewrite filter_all; [reflexivity|].
    intros r Hr. rewrite Hbad; [reflexivity|]. now apply in_map. }
  rewrite (preprocess_cases _ _ _ _ _ quicksort_sorts). cbv zeta.
  fold all_files. fold U.
  destruct all_files as [|p ps] eqn:E; [now contradiction Hl|].
  destruct (loaded (p :: ps)) as [|df dfs] eqn:El; [now contradiction Hl|].
  apply usable_first_bad in Hu. rewrite Hu, Ht, Hw.
  unfold preprocess.success_log. rewrite Hd.
  f_equal. f_equal. rewrite <- !app_assoc. reflexivity.
Qed.

(** *** The order of the files *)






(** *** The numbers a run prints *)

Lemma warnings_files all_files p e :
  In (WarningRead p e) (warnings all_files) ->
  In p all_files /\ read_excel p = inl e.
Proof.
  induction all_files as [|q qs IH]; simpl; [contradiction|].
  destruct (read_excel q) as [e'|df] eqn:E.
  - intros [H|H]; [injection H as <- <-; auto|].
    destruct (IH H). auto.
  - intros H. destruct (IH H). auto.
Qed.

Lemma success_lines all_files df base_path out t x :
  In x (found_log base_path all_files ++ success_log df out ++ final_log t)
  <-> In x [Searching base_path; Found (length all_files)]
      \/ In x (warnings all_files)
      \/ In x [Concatenating; InitialRecords (len df); Translating; Converting]
      \/ (x = Dropped (rows_dropped df) /\ 0 < rows_dropped df)
      \/ In x [Sorting; Saving out]
      \/ In x (final_log t).
Proof.
  unfold preprocess.found_log, preprocess.success_log, dropped_line.
  rewrite !in_app_iff.
  destruct (Nat.ltb_spec 0 (rows_dropped df)) as [Hd|Hd].
  - cbn [In]. intuition.
  - cbn [In]. intuition. lia.
Qed.

Ltac line_cases H :=
  repeat match type of H with
  | _ \/ _ => destruct H as [H|H]
  | _ /\ _ => destruct H as [H ?]
  | False => contradiction
  | In _ (preprocess.warnings _ _) =>
      apply warnings_are_warnings in H as (? & ? & H)
  end; try discriminate.

(** X13. The numbers a successful run prints are the true ones. The count
    of found files is the number of [.xlsx] files; the initial record count
    is the number of rows of all the files that loaded; the final record
    count is the number of rows written; the "Dropped" line appears exactly
    when the two differ, with their difference; and a warning is printed
    exactly for the found files that did not load, with the reader's error
    text. No other number of any of these kinds is printed. *)
Theorem printed_counts_are_true fs base_path out w w' r t :
  preprocess_vehicle_data fs base_path out w = (w', r) ->
  written w' = (out, t) :: written w ->
  let all_files := find_files base_path fs in
  let n := list_sum (map len (loaded all_files)) in
  let m := length (records t) in
  exists lines,
    stdout w' = stdout w ++ lines
    /\ m <= n
    /\ (forall k, In (Found k) lines <-> k = length all_files)
    /\ (forall k, In (InitialRecords k) lines <-> k = n)
    /\ (forall k, In (Dropped k) lines <-> k = n - m /\ m < n)
    /\ (forall k, In (FinalRecords k) lines <-> k = m)
    /\ (forall p e, In (WarningRead p e) lines <->
                    In p all_files /\ read_excel p = inl e).
Proof.
  intros Hrun Hw all_files n m.
  destruct (run_written _ _ _ _ _ quicksort_sorts _ _ _ _ _ _ _ Hrun Hw)
    as (_ & _ & Hu & _ & Ht & _ & Hout).
  fold all_files in Hu, Ht, Hout.
  set (U := unified (loaded all_files)) in *.
  assert (Hm : m = len U - rows_dropped U).
  { unfold m. subst t.
    rewrite (Permutation_length (expected_perm _ _ _ quicksort_sorts U)).
    apply surviving_length. }
  assert (Hn : len U = n) by apply len_unified.
  assert (Hd : rows_dropped U <= len U).
  { unfold preprocess.rows_dropped, len. apply filter_length_le. }
  exists (found_log base_path all_files ++ success_log U out ++ final_log t).
  split; [exact Hout|]. split; [lia|].
  subst t.
  assert (Hlines : forall x,
            In x (found_log base_path all_files ++ success_log U out
                  ++ final_log (expected_table U))
            <-> In x [Searching base_path; Found (length all_files)]
                \/ In x (warnings all_files)
                \/ In x [Concatenating; InitialRecords n; Translating;
                         Converting]
                \/ (x = Dropped (n - m) /\ m < n)
                \/ In x [Sorting; Saving out]
                \/ In x [Complete; FinalRecords m; Saved;
                         FirstRows (firstn 5 (pd.relabel 0
                                      (records (expected_table U))))]).
  { intros x. rewrite success_lines. rewrite Hn.
    replace (rows_dropped U) with (n - m) by lia.
    unfold final_log. fold m.
    assert (Hlt : 0 < n - m <-> m < n) by lia.
    tauto. }
  split; [|split; [|split; [|split]]].
  - intros k. rewrite Hlines. cbn [In]. split.
    + intros H. line_cases H. now injection H.
    + intros ->. pose proof (eq_refl (Found (length all_files))). tauto.
  - intros k. rewrite Hlines. cbn [In]. split.
    + intros H. line_cases H. now injection H.
    + intros ->. pose proof (eq_refl (InitialRecords n)). tauto.
  - intros k. rewrite Hlines. cbn [In]. split.
    + intros H. line_cases H. injection H as ->. auto.
    + intros [-> H]. pose proof (eq_refl (Dropped (n - m))). tauto.
  - intros k. rewrite Hlines. cbn [In]. split.
    + intros H. line_cases H. now injection H.
    + intros ->. pose proof (eq_refl (FinalRecords m)). tauto.
  - intros p e. rewrite Hlines. cbn [In]. split.
    + intros H.
      repeat match type of H with
      | _ \/ _ => destruct H as [H|H]
      | _ /\ _ => destruct H as [H ?]
      | False => contradiction
      end; try discriminate.
      now apply warnings_files in H.
    + intros [H1 H2]. right. left. now apply (warnings_In read_excel).
Qed.

(** *** The script *)

Lemma written_cases fs base_path out w w' r :
  preprocess_vehicle_data fs base_path out w = (w', r) ->
  written w' = written w
  \/ exists t, written w' = (out, t) :: written w.
Proof.
  intros Hrun.
  rewrite (preprocess_cases _ _ _ _ _ quicksort_sorts) in Hrun.
  cbv zeta in Hrun.
  destruct (find_files base_path fs) as [|p ps];
    [injection Hrun as <- _; now left|].
  destruct (loaded (p :: ps)) as [|df dfs];
    [injection Hrun as <- _; now left|].
  destruct (first_bad _ lookups); [injection Hrun as <- _; now left|].
  destruct (write_error out _); injection Hrun as <- _; cbn [written];
    [now left|right; eexists; reflexivity].
Qed.

(** X14. The script, as its [__main__] block runs it, looks at nothing
    outside the folder [./Data/Vehicle 2]: with another reader that agrees
    on the [.xlsx] paths inside that folder it runs the same. And it writes
    at most one file, [processed_vehicle_2.parquet], leaving every file
    written before in place. *)
Theorem script_reads_and_writes other_reader fs w :
  (forall p, String.prefix "./Data/Vehicle 2/" p = true ->
             endswith p ".xlsx" = true -> read_excel p = other_reader p) ->
  main fs w
  = preprocess.main other_reader parse_datetime parse_numeric quicksort
      write_error fs w
  /\ forall w' r,
       main fs w = (w', r) ->
       written w' = written w
       \/ exists t,
            written w' = ("processed_vehicle_2.parquet", t) :: written w.
Proof.
  intros H. split.
  - pose proof (read_found_ext read_excel other_reader VEHICLE_BASE_PATH fs H)
      as Hread.
    unfold preprocess.main, preprocess_vehicle_data.
    rewrite !bind_print. cbv zeta.
    destruct (find_files VEHICLE_BASE_PATH fs) as [|p ps]; [reflexivity|].
    rewrite !bind_print. unfold bind. now rewrite Hread.
  - intros w' r. now apply written_cases.
Qed.

End Rows.

(** ** The further properties on the sample data *)

Lemma lookup_failure_ends_run_witness :
  Cases.run Sample.writable Cases.duplicated
  = (mkWorld [Searching "./Data"; Found 1; Concatenating; InitialRecords 1;
              Translating; Converting] [],
     Raise (TypeError "soc")).
Proof.
  destruct (lookup_failure_ends_run Cases.read_excel Sample.parse_datetime
              Sample.parse_numeric Kinds.stable Sample.writable
              Cases.duplicated "./Data" "processed.parquet" Sample.start "soc")
    as (Hrun & _ & Htype).
  - vm_compute. discriminate.
  - vm_compute. reflexivity.
  - unfold Cases.run. rewrite Hrun, Htype by (vm_compute; auto 12).
    vm_compute. reflexivity.
Defined.

Lemma write_failure_ends_run_witness :
  Cases.run Cases.disk_full Cases.a_then_b
  = (mkWorld [Searching "./Data"; Found 2; Concatenating; InitialRecords 4;
              Translating; Converting; Sorting; Saving "processed.parquet"] [],
     Raise (IOError "No space left on device")).
Proof.
  unfold Cases.run.
  rewrite (write_failure_ends_run Cases.read_excel Sample.parse_datetime
             Sample.parse_numeric Kinds.stable Cases.disk_full stable_sorts
             Cases.a_then_b "./Data" "processed.parquet" Sample.start
             "No space left on device").
  - vm_compute. reflexivity.
  - vm_compute. discriminate.
  - vm_compute. reflexivity.
  - reflexivity.
Defined.

Lemma writes_only_the_output_witness :
  written (fst (Cases.run Sample.writable Cases.a_then_b))
  = written Sample.start
  \/ written (fst (Cases.run Sample.writable Cases.a_then_b))
     = ("processed.parquet",
        expected_table Sample.parse_datetime Sample.parse_numeric Kinds.stable
          (unified (loaded Cases.read_excel
                      (find_files "./Data" Cases.a_then_b))))
       :: written Sample.start.
Proof.
  destruct (writes_only_the_output Cases.read_excel Sample.parse_datetime
              Sample.parse_numeric Kinds.stable Sample.writable stable_sorts
              Cases.a_then_b "./Data" "processed.parquet" Sample.start
              (fst (Cases.run Sample.writable Cases.a_then_b))
              (snd (Cases.run Sample.writable Cases.a_then_b))
              (surjective_pairing _)) as [H _].
  exact H.
Defined.

Lemma saved_only_when_written_witness :
  exists lines,
    stdout (fst (Cases.run Cases.disk_full Cases.a_then_b))
    = stdout Sample.start ++ lines
    /\ (In Saved lines <->
        exists t, written (fst (Cases.run Cases.disk_full Cases.a_then_b))
                  = ("processed.parquet", t) :: written Sample.start)
    /\ (In Complete lines <-> In Saved lines).
Proof.
  destruct (saved_only_when_written Cases.read_excel Sample.parse_datetime
              Sample.parse_numeric Kinds.stable Cases.disk_full stable_sorts
              Cases.a_then_b "./Data" "processed.parquet" Sample.start
              (fst (Cases.run Cases.disk_full Cases.a_then_b))
              (snd (Cases.run Cases.disk_full Cases.a_then_b))
              (surjective_pairing _)) as (lines & H1 & H2 & H3 & _).
  exists lines. auto.
Defined.

Lemma finds_the_xlsx_files_witness :
  endswith "./Data/old/broken.xlsx" ".xlsx" = true
  /\ String.prefix "./Data" "./Data/old/broken.xlsx" = true
  /\ String.prefix "./Data/" "./Data/old/broken.xlsx" = true.
Proof.
  apply (proj2 (finds_the_xlsx_files "./Data" Sample.two_files
                  "./Data/old/broken.xlsx")).
  vm_compute. auto.
Defined.

Lemma concat_keeps_every_row_witness :
  len (pd.concat [Sample.day1; Sample.day3]) = 3 + 1
  /\ NoDup (columns (pd.concat [Sample.day1; Sample.day3])).
Proof.
  destruct (concat_keeps_every_row [Sample.day1; Sample.day3])
    as (H1 & _ & H3 & _).
  split; [exact H1|exact H3].
Defined.

Lemma rename_is_idempotent_witness :
  pd.rename_label cleaned_columns (pd.rename_label cleaned_columns "SOC(%)")
  = pd.rename_label cleaned_columns "SOC(%)"
  /\ In (pd.rename_label cleaned_columns "SOC(%)") numeric_cols.
Proof.
  destruct rename_is_idempotent as (H1 & _ & _ & _ & H5).
  split; [apply H1|].
  apply (H5 "SOC(%)" "soc"); [discriminate|reflexivity].
Defined.

Lemma reads_only_found_files_witness :
  Cases.run Sample.writable Cases.a_then_b
  = preprocess_vehicle_data Cases.read_more Sample.parse_datetime
      Sample.parse_numeric Kinds.stable Sample.writable Cases.a_then_b
      "./Data" "processed.parquet" Sample.start.
Proof.
  apply reads_only_found_files.
  intros p _ H. unfold Cases.read_more. rewrite H. reflexivity.
Defined.


Lemma states_are_labels_or_missing_witness :
  In (value (schema (Cases.table Cases.a_then_b)) "vehicle_state"
        (nth 1 (records (Cases.table Cases.a_then_b)) []))
     [NA; Str "Vehicle Start"; Str "Engine Off"]
  /\ In (value (schema (Cases.table Cases.a_then_b)) "charge_state"
           (nth 1 (records (Cases.table Cases.a_then_b)) []))
        [NA; Str "Not Charging"; Str "Parked Charging";
         Str "Charging Complete"].
Proof.
  assert (Hw : written (fst (Cases.run Sample.writable Cases.a_then_b))
               = ("processed.parquet", Cases.table Cases.a_then_b)
                 :: written Sample.start)
    by (vm_compute; reflexivity).
  pose proof (states_are_labels_or_missing Cases.read_excel
                Sample.parse_datetime Sample.parse_numeric Kinds.stable
                Sample.writable stable_sorts Cases.a_then_b "./Data"
                "processed.parquet" Sample.start
                (fst (Cases.run Sample.writable Cases.a_then_b))
                (snd (Cases.run Sample.writable Cases.a_then_b))
                (Cases.table Cases.a_then_b) (surjective_pairing _)) as H.
  specialize (H Hw). destruct H as [H _].
  apply H. vm_compute. auto.
Defined.

Lemma empty_result_is_written_witness :
  Cases.run Sample.writable Cases.nothing_usable
  = (mkWorld [Searching "./Data"; Found 1; Concatenating; InitialRecords 2;
              Translating; Converting; Dropped 2; Sorting;
              Saving "processed.parquet"; Complete; FinalRecords 0; Saved;
              FirstRows []]
       [("processed.parquet", mkParquet canonical_columns [])],
     Ok tt).
Proof.
  unfold Cases.run.
  rewrite (empty_result_is_written Cases.read_excel Sample.parse_datetime
             Sample.parse_numeric Kinds.stable Sample.writable stable_sorts
             Cases.nothing_usable "./Data" "processed.parquet" Sample.start).
  - vm_compute. reflexivity.
  - vm_compute. discriminate.
  - vm_compute. reflexivity.
  - intros raw H. vm_compute in H.
    destruct H as [<-|[<-|[]]]; vm_compute; reflexivity.
  - reflexivity.
Defined.


Lemma printed_counts_are_true_witness :
  exists lines,
    stdout (fst (Sample.run Kinds.stable Sample.ties))
    = stdout Sample.start ++ lines
    /\ (forall k, In (InitialRecords k) lines <-> k = 5)
    /\ (forall k, In (Dropped k) lines <-> k = 5 - 3 /\ 3 < 5)
    /\ (forall k, In (FinalRecords k) lines <-> k = 3).
Proof.
  assert (Hw : written (fst (Sample.run Kinds.stable Sample.ties))
               = ("processed.parquet", Sample.table Kinds.stable Sample.ties)
                 :: written Sample.start)
    by (vm_compute; reflexivity).
  pose proof (printed_counts_are_true Sample.read_excel Sample.parse_datetime
                Sample.parse_numeric Kinds.stable Sample.writable stable_sorts
                Sample.ties "./Data" "processed.parquet" Sample.start
                (fst (Sample.run Kinds.stable Sample.ties))
                (snd (Sample.run Kinds.stable Sample.ties))
                (Sample.table Kinds.stable Sample.ties)
                (surjective_pairing _)) as H.
  specialize (H Hw). cbv zeta in H.
  destruct H as (lines & H1 & _ & _ & H4 & H5 & H6 & _).
  exists lines. split; [exact H1|]. split; [exact H4|]. split; [exact H5|].
  exact H6.
Defined.

Lemma script_reads_and_writes_witness :
  Cases.script Cases.read_excel Cases.vehicle_2
  = Cases.script Cases.read_vehicle_2 Cases.vehicle_2.
Proof.
  destruct (script_reads_and_writes Cases.read_excel Sample.parse_datetime
              Sample.parse_numeric Kinds.stable Sample.writable stable_sorts
              Cases.read_vehicle_2 Cases.vehicle_2 Sample.start) as [H _].
  - intros p H _. unfold Cases.read_vehicle_2. rewrite H. reflexivity.
  - exact H.
Defined.
